(** * Access control with an ultrasonic height sensor and an RFID reader

    A shallow embedding of [Automated_Access.ino] (an Arduino Uno sketch)
    and the properties of its control loop.

    Layout of the file:
    - constants and tables of the sketch;
    - the rendering of a card UID ([String(byte, HEX)] and the joining loop);
    - the lookup in [authorizedUsers];
    - a small state-and-trace monad for the effects of the sketch;
    - [setup], the buzzer helpers, the card-wait loop and [loop];
    - derived views (height classes) and the theorems. *)

From Stdlib Require Import ZArith List Bool Lia.
From Stdlib Require Import Ascii String.
From Stdlib Require Import Strings.Byte.
From Stdlib Require Import Floats.SpecFloat.
Import ListNotations.

Local Open Scope string_scope.
Local Open Scope Z_scope.

(** ** Constants of the sketch *)

Definition MAX_DISTANCE : Z := 400.
Definition BUZZER_PIN : Z := 7.
Definition SENSOR_HEIGHT : Z := 208.
Definition MIN_HEIGHT_FOR_ACCESS : Z := 100.

(** [NewPing::ping_cm] answers 0 (the library's [NO_ECHO]) when no echo
    came back within [MAX_DISTANCE]. *)
Definition NO_ECHO : Z := 0.

(** [struct AccessResult] and [struct User]. *)
Record AccessResult := mkAccessResult {
  accessGranted : bool;
  userName : string
}.

Record User := mkUser {
  name : string;
  uid : string
}.

Definition authorizedUsers : list User :=
  [ mkUser "Abdalla Nassar" "4 4a f5 6a 2c 59 80";
    mkUser "Nafea" "fe 8a 2 bf";
    mkUser "samy" "9F 30 19 89" ].

Definition numUsers : Z := Z.of_nat (List.length authorizedUsers).

(** ** Machine integers

    The board is an Arduino Uno (ATmega328P): [int] is 16 bits wide and
    two's complement, [unsigned long] is 32 bits wide. *)

Definition INT_MAX : Z := 32767.
Definition INT_MIN : Z := -32768.

(** The value an [int] holds after an arithmetic result [z].  The language
    leaves signed overflow undefined; the 16-bit addition avr-gcc emits for
    [peopleCount++] wraps around. *)
Definition wrap_int (z : Z) : Z := (z + 32768) mod 65536 - 32768.

(** The value an [unsigned long] holds after an arithmetic result [z]. *)
Definition wrap_ulong (z : Z) : Z := z mod 2 ^ 32.

(** ** Rendering a card UID

    [String(value, HEX)] for a [byte] calls [utoa(value, buf, 16)]: the
    digits of the value in base 16, most significant first, lowercase, without
    padding; the value 0 gives the single digit 0. *)

Definition hex_digit (n : N) : ascii :=
  match n with
  | 0%N => "0" | 1%N => "1" | 2%N => "2" | 3%N => "3"
  | 4%N => "4" | 5%N => "5" | 6%N => "6" | 7%N => "7"
  | 8%N => "8" | 9%N => "9" | 10%N => "a" | 11%N => "b"
  | 12%N => "c" | 13%N => "d" | 14%N => "e" | _ => "f"
  end%char.

(** [utoa] in base 16; [fuel] bounds the number of digits (the buffer of
    [String(unsigned char, base)] has room for 8 digits). *)
Fixpoint utoa_hex (fuel : nat) (v : N) : string :=
  match fuel with
  | O => ""
  | S fuel' =>
      let q := (v / 16)%N in
      let r := (v mod 16)%N in
      (if (q =? 0)%N then "" else utoa_hex fuel' q) ++ String (hex_digit r) ""
  end.

Definition String_HEX (b : byte) : string := utoa_hex 8 (Byte.to_N b).

(** The loop of lines 108-113.  [size] is [rfid.uid.size], [i] the loop
    counter, [bytes] the entries [uidByte[i]], [uidByte[i+1]], ... still to
    visit and [uidString] the string built so far. *)
Fixpoint uid_loop (size i : Z) (bytes : list byte) (uidString : string) : string :=
  match bytes with
  | [] => uidString
  | b :: bytes' =>
      let uidString := uidString ++ String_HEX b in
      let uidString := if i <? size - 1 then uidString ++ " " else uidString in
      uid_loop size (i + 1) bytes' uidString
  end.

(** Lines 105-113: the identifier of the card just read.  [uidByte] holds
    the first [rfid.uid.size] entries of [rfid.uid.uidByte]; the reader
    delivers 4, 7 or 10 of them. *)
Definition render_uid (uidByte : list byte) : string :=
  uid_loop (Z.of_nat (List.length uidByte)) 0 uidByte "".

(** ** Looking a UID up in the table

    Lines 116-126: [result] starts with [accessGranted = false] and an empty
    [userName]; the loop runs over the [numUsers] entries of the table, that
    is over all of them, and stops at the first entry whose [uid] equals the
    scanned string ([String::equals] compares length and content). *)
Fixpoint match_loop (users : list User) (uidString : string) (result : AccessResult)
  : AccessResult :=
  match users with
  | [] => result
  | u :: users' =>
      if String.eqb uidString (uid u)
      then mkAccessResult true (name u)
      else match_loop users' uidString result
  end.

Definition check_uid (users : list User) (uidString : string) : AccessResult :=
  match_loop users uidString (mkAccessResult false "").

(** ** Effects

    Everything the sketch does to the outside world is recorded, in order, as
    a trace of [Effect]s.  The only mutable global is [peopleCount]. *)

Inductive Port := Serial | bluetooth.
Inductive Level := LOW | HIGH.

Inductive Effect :=
| Begin (p : Port) (baud : Z)             (* p.begin(baud) *)
| Print (p : Port) (s : string)           (* p.print(s) *)
| Println (p : Port) (s : string)         (* p.println(s) *)
| PrintlnInt (p : Port) (v : Z)           (* p.println(v), v an int *)
| PrintlnFloat (p : Port) (v : Z)         (* p.println(v), v a float of integral value *)
| PinModeOutput (pin : Z)                 (* pinMode(pin, OUTPUT) *)
| DigitalWrite (pin : Z) (l : Level)      (* digitalWrite(pin, l) *)
| ToneAC (a b c : Z)                      (* toneAC(a, b, c), arguments as passed *)
| Delay (ms : Z)                          (* delay(ms) *)
| SPI_begin                               (* SPI.begin() *)
| PCD_Init                                (* rfid.PCD_Init() *)
| PICC_HaltA.                             (* rfid.PICC_HaltA() *)

Record State := mkState { peopleCount : Z }.

(** A computation reads and updates the state, appends to the trace, and is
    [None] only when the scripted environment has no further answer. *)
Definition M (A : Type) : Type := State -> option (A * State * list Effect).

Definition ret {A} (a : A) : M A := fun st => Some (a, st, []).

Definition bind {A B} (m : M A) (k : A -> M B) : M B :=
  fun st =>
    match m st with
    | None => None
    | Some (a, st1, t1) =>
        match k a st1 with
        | None => None
        | Some (b, st2, t2) => Some (b, st2, (t1 ++ t2)%list)
        end
    end.

Definition emit (e : Effect) : M unit := fun st => Some (tt, st, [e]).
Definition get_peopleCount : M Z := fun st => Some (peopleCount st, st, []).
Definition set_peopleCount (v : Z) : M unit := fun _ => Some (tt, mkState v, []).
Definition stuck {A} : M A := fun _ => None.

Declare Scope sketch_scope.
Delimit Scope sketch_scope with sketch.
Notation "x <- m ;; k" := (bind m (fun x => k))
  (at level 61, m at next level, right associativity) : sketch_scope.
Notation "m ;; k" := (bind m (fun _ => k))
  (at level 61, right associativity) : sketch_scope.
Local Open Scope sketch_scope.

Definition print (p : Port) (s : string) : M unit := emit (Print p s).
Definition println (p : Port) (s : string) : M unit := emit (Println p s).
Definition println_int (p : Port) (v : Z) : M unit := emit (PrintlnInt p v).
Definition println_float (p : Port) (v : Z) : M unit := emit (PrintlnFloat p v).
Definition digitalWrite (pin : Z) (l : Level) : M unit := emit (DigitalWrite pin l).
Definition toneAC (a b c : Z) : M unit := emit (ToneAC a b c).
Definition delay (ms : Z) : M unit := emit (Delay ms).

(** ** The sketch *)

(** The globals as the program starts (line 53). *)
Definition initial_state : State := mkState 0.

(** Lines 56-65. *)
Definition setup : M unit :=
  emit (Begin Serial 9600) ;;
  emit (Begin bluetooth 9600) ;;
  emit (PinModeOutput BUZZER_PIN) ;;
  digitalWrite BUZZER_PIN LOW ;;
  emit SPI_begin ;;
  emit PCD_Init.

(** Lines 68-72. *)
Definition soundBuzzerSuccess : M unit :=
  digitalWrite BUZZER_PIN HIGH ;;
  delay 600 ;;
  digitalWrite BUZZER_PIN LOW.

(** Lines 75-78. *)
Definition soundBuzzerFail : M unit :=
  toneAC BUZZER_PIN 1000 200 ;;
  delay 200.

(** Lines 129-147: what follows the lookup.  The value tells whether the
    branch taken ended in [break]. *)
Definition process_result (result : AccessResult) : M bool :=
  if accessGranted result then
    let userName := userName result in
    c <- get_peopleCount ;;
    set_peopleCount (wrap_int (c + 1)) ;;
    println Serial ("Welcome " ++ userName) ;;
    print Serial "Count of people: " ;;
    (c <- get_peopleCount ;; println_int Serial c) ;;
    println bluetooth ("Welcome " ++ userName) ;;
    print bluetooth "Count of people: " ;;
    (c <- get_peopleCount ;; println_int bluetooth c) ;;
    soundBuzzerSuccess ;;
    delay 3000 ;;
    ret true
  else if negb (accessGranted result) then
    println Serial "Access denied" ;;
    println bluetooth "Access denied" ;;
    soundBuzzerFail ;;
    delay 1000 ;;
    ret true
  else ret false.

(** Lines 105-147: the body run when a card has been read. *)
Definition card_event (uidByte : list byte) : M bool :=
  let uidString := render_uid uidByte in
  println Serial uidString ;;
  let result := check_uid authorizedUsers uidString in
  process_result result.

(** One turn of the [while] of line 103 as the environment answers it:
    [millis] is the value [millis()] returns in the loop test, [card] is
    [Some uidByte] when [PICC_IsNewCardPresent() && PICC_ReadCardSerial()]
    holds on that turn (the reader then exposes [rfid.uid]) and [None]
    otherwise. *)
Record Poll := mkPoll {
  millis : Z;
  card : option (list byte)
}.

(** The test of line 103, in [unsigned long] arithmetic. *)
Definition window_open (startTime now : Z) : bool :=
  wrap_ulong (now - startTime) <? 8000.

(** Lines 103-149.  The result is the part of the script the loop did not
    consume. *)
Fixpoint card_wait (startTime : Z) (polls : list Poll) : M (list Poll) :=
  match polls with
  | [] => stuck
  | p :: polls' =>
      if window_open startTime (millis p) then
        match card p with
        | Some uidByte =>
            broke <- card_event uidByte ;;
            if broke then ret polls' else card_wait startTime polls'
        | None => card_wait startTime polls'
        end
      else ret polls'
  end.

(** What one call of [loop] receives from the environment: the answer of
    [sonar.ping_cm()] in centimetres, the value of [millis()] at line 100 and
    the turns of the card-wait loop. *)
Record Inputs := mkInputs {
  ping_cm : Z;
  startTime : Z;
  polls : list Poll
}.

(** Lines 81-158.  [distance] and [height] are [float]s in the sketch; a
    reading is a whole number of centimetres, and every whole number below
    2^24 in magnitude is a [float], so both are carried as integers (see
    [float_loop_branch] below for the comparison with binary32 arithmetic).
    The local [accessGranted] of line 82 is never read. *)
Definition loop (inp : Inputs) : M (list Poll) :=
  let distance := ping_cm inp in
  let height := SENSOR_HEIGHT - distance in
  println_float Serial height ;;
  println_float Serial distance ;;
  rest <- (if (height >? 0) && (height <? 400) then
             if height <? MIN_HEIGHT_FOR_ACCESS then
               println Serial "Entry denied: Person is too short." ;;
               println bluetooth "Entry denied: Person is too short." ;;
               soundBuzzerFail ;;
               ret (polls inp)
             else if height >? MIN_HEIGHT_FOR_ACCESS then
               println Serial "Please present NFC card for entry." ;;
               println bluetooth "Please present NFC card for entry." ;;
               card_wait (startTime inp) (polls inp)
             else ret (polls inp)
           else
             println Serial "No one under the sensor." ;;
             soundBuzzerFail ;;
             delay 1500 ;;
             ret (polls inp)) ;;
  emit PICC_HaltA ;;
  ret rest.

(** Running [loop] over and over, one [Inputs] per call. *)
Fixpoint run (ins : list Inputs) (st : State) : option State :=
  match ins with
  | [] => Some st
  | inp :: ins' =>
      match loop inp st with
      | Some (_, st', _) => run ins' st'
      | None => None
      end
  end.

(** ** Derived views of the control flow *)

(** The branch of lines 91-97 and 151 a reading leads to.  [AtThreshold] is
    the case in which neither line 93 nor line 97 holds. *)
Inductive HeightClass := NoSubject | TooShort | InRange | AtThreshold.

Definition height_of (distance : Z) : Z := SENSOR_HEIGHT - distance.

Definition classify (distance : Z) : HeightClass :=
  let height := height_of distance in
  if (height >? 0) && (height <? 400) then
    if height <? MIN_HEIGHT_FOR_ACCESS then TooShort
    else if height >? MIN_HEIGHT_FOR_ACCESS then InRange
    else AtThreshold
  else NoSubject.

(** The same branching computed in binary32, the [float] of the board:
    [distance] is the reading converted to [float], [height] the [float]
    difference, and the comparisons are those of lines 91, 93 and 97 with
    their integer operands converted. *)
Module Float32.

Definition prec : Z := 24.
Definition emax : Z := 128.
Definition of_Z (z : Z) : spec_float := binary_normalize prec emax z 0 false.
Definition sub : spec_float -> spec_float -> spec_float := SFsub prec emax.
Definition ltb : spec_float -> spec_float -> bool := SFltb.
Definition gtb (x y : spec_float) : bool := SFltb y x.

Definition classify (reading : Z) : HeightClass :=
  let distance := of_Z reading in
  let height := sub (of_Z SENSOR_HEIGHT) distance in
  if gtb height (of_Z 0) && ltb height (of_Z 400) then
    if ltb height (of_Z MIN_HEIGHT_FOR_ACCESS) then TooShort
    else if gtb height (of_Z MIN_HEIGHT_FOR_ACCESS) then InRange
    else AtThreshold
  else NoSubject.

End Float32.

Definition HeightClass_eqb (a b : HeightClass) : bool :=
  match a, b with
  | NoSubject, NoSubject | TooShort, TooShort
  | InRange, InRange | AtThreshold, AtThreshold => true
  | _, _ => false
  end.

(** The first card read while the window is open, with the script left
    after it; [Timeout] when the window closes first; [Exhausted] when the
    script ends before either. *)
Inductive WindowExit :=
| CardRead (uidByte : list byte) (rest : list Poll)
| Timeout (rest : list Poll)
| Exhausted.

Fixpoint window_exit (startTime : Z) (polls : list Poll) : WindowExit :=
  match polls with
  | [] => Exhausted
  | p :: polls' =>
      if window_open startTime (millis p) then
        match card p with
        | Some uidByte => CardRead uidByte polls'
        | None => window_exit startTime polls'
        end
      else Timeout polls'
  end.

(** A turn of the wait loop on which the window is open and no card is
    read. *)
Definition quiet (startTime : Z) (p : Poll) : Prop :=
  window_open startTime (millis p) = true /\ card p = None.

(** The [AccessResult] computed during a call of [loop], if any. *)
Definition iteration_outcome (inp : Inputs) : option AccessResult :=
  match classify (ping_cm inp) with
  | InRange =>
      match window_exit (startTime inp) (polls inp) with
      | CardRead uidByte _ => Some (check_uid authorizedUsers (render_uid uidByte))
      | _ => None
      end
  | _ => None
  end.

Definition granted_iteration (inp : Inputs) : bool :=
  match iteration_outcome inp with
  | Some r => accessGranted r
  | None => false
  end.

(** ** Traces of the feedback paths *)

Definition prologue (distance : Z) : list Effect :=
  [PrintlnFloat Serial (SENSOR_HEIGHT - distance); PrintlnFloat Serial distance].

Definition fail_pattern : list Effect := [ToneAC BUZZER_PIN 1000 200; Delay 200].

Definition success_pattern : list Effect :=
  [DigitalWrite BUZZER_PIN HIGH; Delay 600; DigitalWrite BUZZER_PIN LOW].

Definition too_short_feedback : list Effect :=
  [Println Serial "Entry denied: Person is too short.";
   Println bluetooth "Entry denied: Person is too short."] ++ fail_pattern.

Definition no_subject_feedback : list Effect :=
  [Println Serial "No one under the sensor."] ++ fail_pattern ++ [Delay 1500].

Definition prompt_feedback : list Effect :=
  [Println Serial "Please present NFC card for entry.";
   Println bluetooth "Please present NFC card for entry."].

Definition granted_feedback (userName : string) (count : Z) : list Effect :=
  [Println Serial ("Welcome " ++ userName);
   Print Serial "Count of people: "; PrintlnInt Serial count;
   Println bluetooth ("Welcome " ++ userName);
   Print bluetooth "Count of people: "; PrintlnInt bluetooth count]
  ++ success_pattern ++ [Delay 3000].

Definition rejected_feedback : list Effect :=
  [Println Serial "Access denied"; Println bluetooth "Access denied"]
  ++ fail_pattern ++ [Delay 1000].

(** State and trace of [card_event], as functions of the card and the state
    before it. *)
Definition state_after_card (uidByte : list byte) (st : State) : State :=
  let r := check_uid authorizedUsers (render_uid uidByte) in
  if accessGranted r then mkState (wrap_int (peopleCount st + 1)) else st.

Definition trace_of_card (uidByte : list byte) (st : State) : list Effect :=
  let r := check_uid authorizedUsers (render_uid uidByte) in
  Println Serial (render_uid uidByte) ::
  (if accessGranted r
   then granted_feedback (userName r) (wrap_int (peopleCount st + 1))
   else rejected_feedback).

(** ** Predicates on strings and traces *)

Fixpoint string_forallb (p : ascii -> bool) (s : string) : bool :=
  match s with
  | EmptyString => true
  | String c s' => p c && string_forallb p s'
  end.

(** The characters [utoa] can produce in base 16. *)
Definition is_lower_hex (c : ascii) : bool :=
  let n := N_of_ascii c in
  ((48 <=? n) && (n <=? 57) || (97 <=? n) && (n <=? 102))%N.

Definition is_space (c : ascii) : bool := Ascii.eqb c " ".

Definition is_lower_hex_or_space (c : ascii) : bool := is_lower_hex c || is_space c.

(** Reading a hexadecimal numeral back, either case accepted. *)
Definition hex_digit_value (c : ascii) : option N :=
  let n := N_of_ascii c in
  if ((48 <=? n) && (n <=? 57))%N then Some (n - 48)%N
  else if ((97 <=? n) && (n <=? 102))%N then Some (n - 87)%N
  else if ((65 <=? n) && (n <=? 70))%N then Some (n - 55)%N
  else None.

Fixpoint hex_value_from (acc : N) (s : string) : option N :=
  match s with
  | EmptyString => Some acc
  | String c s' =>
      match hex_digit_value c with
      | Some d => hex_value_from (16 * acc + d)%N s'
      | None => None
      end
  end.

Definition hex_value (s : string) : option N :=
  match s with
  | EmptyString => None
  | _ => hex_value_from 0%N s
  end.

Fixpoint has_prefix (p s : string) : bool :=
  match p with
  | EmptyString => true
  | String a p' =>
      match s with
      | EmptyString => false
      | String b s' => Ascii.eqb a b && has_prefix p' s'
      end
  end.

(** The lines the sketch writes to the local log when, and only when, an
    [AccessResult] has been acted on (lines 132 and 142). *)
Definition is_outcome_line (e : Effect) : bool :=
  match e with
  | Println Serial s => String.eqb s "Access denied" || has_prefix "Welcome " s
  | _ => false
  end.

Definition outcomes (t : list Effect) : nat :=
  List.length (filter is_outcome_line t).

(** ** Runs *)

Definition count_granted (ins : list Inputs) : nat :=
  List.length (filter granted_iteration ins).

(** One person after another with the card of the second table entry. *)
Definition granted_visit : Inputs :=
  mkInputs 90 0 [mkPoll 1 (Some [xfe; x8a; x02; xbf])].

(** ** Reading an identifier back

    The inverse of the rendering: the identifier is cut at its spaces and
    every piece is read as a hexadecimal numeral of at most 255. *)

(** The pieces of [s] between spaces; [cur] is the piece being read. *)
Fixpoint tokens (s cur : string) : list string :=
  match s with
  | EmptyString => [cur]
  | String c s' =>
      if is_space c then cur :: tokens s' "" else tokens s' (cur ++ String c "")
  end.

Definition parse_byte (tok : string) : option byte :=
  match hex_value tok with
  | Some n => Byte.of_N n
  | None => None
  end.

Fixpoint parse_bytes (toks : list string) : option (list byte) :=
  match toks with
  | [] => Some []
  | tok :: toks' =>
      match parse_byte tok, parse_bytes toks' with
      | Some b, Some bs => Some (b :: bs)
      | _, _ => None
      end
  end.

Definition parse_uid (s : string) : option (list byte) :=
  match s with
  | EmptyString => Some []
  | _ => parse_bytes (tokens s "")
  end.


(** The number of digits of the numeral of a byte. *)
Definition digits_of (b : byte) : nat := if (Byte.to_N b <? 16)%N then 1%nat else 2%nat.

(** Whether the binary32 branching and the integer one agree on the [n]
    readings from [d] on. *)
Fixpoint agree_upto (n : nat) (d : Z) : bool :=
  match n with
  | O => true
  | S n' => HeightClass_eqb (Float32.classify d) (classify d) && agree_upto n' (d + 1)
  end.

(** ** Observations on traces *)

(** The level of [pin] after the trace [t], from the level [l] before it. *)
Definition pin_after (pin : Z) (l : Level) (t : list Effect) : Level :=
  fold_left (fun lv e =>
               match e with
               | DigitalWrite p v => if p =? pin then v else lv
               | _ => lv
               end) t l.

(** The time spent in [delay] along a trace, in milliseconds. *)
Fixpoint total_delay (t : list Effect) : Z :=
  match t with
  | [] => 0
  | Delay ms :: t' => ms + total_delay t'
  | _ :: t' => total_delay t'
  end.

(** The number of times the buzzer is sounded: a [toneAC] call or a rising
    edge written to a pin. *)
Definition is_buzzer_signal (e : Effect) : bool :=
  match e with
  | ToneAC _ _ _ => true
  | DigitalWrite _ HIGH => true
  | _ => false
  end.

Definition buzzer_signals (t : list Effect) : nat :=
  List.length (filter is_buzzer_signal t).

Definition is_halt (e : Effect) : bool :=
  match e with
  | PICC_HaltA => true
  | _ => false
  end.

(** What is written to a port, whatever the port. *)
Inductive Written :=
| WText (s : string)
| WLine (s : string)
| WIntLine (v : Z)
| WFloatLine (v : Z).

Definition Port_eqb (p q : Port) : bool :=
  match p, q with
  | Serial, Serial | bluetooth, bluetooth => true
  | _, _ => false
  end.

(** The transcript of port [p] in a trace. *)
Fixpoint written_to (p : Port) (t : list Effect) : list Written :=
  match t with
  | [] => []
  | e :: t' =>
      match e with
      | Print q s => if Port_eqb p q then WText s :: written_to p t' else written_to p t'
      | Println q s => if Port_eqb p q then WLine s :: written_to p t' else written_to p t'
      | PrintlnInt q v => if Port_eqb p q then WIntLine v :: written_to p t' else written_to p t'
      | PrintlnFloat q v => if Port_eqb p q then WFloatLine v :: written_to p t' else written_to p t'
      | _ => written_to p t'
      end
  end.

(** [subseq a b]: [a] is [b] with some elements left out. *)
Inductive subseq {A : Type} : list A -> list A -> Prop :=
| subseq_nil : forall l, subseq [] l
| subseq_skip : forall x a b, subseq a b -> subseq a (x :: b)
| subseq_take : forall x a b, subseq a b -> subseq (x :: a) (x :: b).

(** [run] with the traces of the calls put end to end. *)
Fixpoint run_trace (ins : list Inputs) (st : State) : option (State * list Effect) :=
  match ins with
  | [] => Some (st, [])
  | inp :: ins' =>
      match loop inp st with
      | Some (_, st', t) =>
          match run_trace ins' st' with
          | Some (final, t') => Some (final, (t ++ t')%list)
          | None => None
          end
      | None => None
      end
  end.

(** * Properties *)

(** Reads the trace of a finished computation off an equation between two
    results. *)
Ltac trace_from H :=
  match type of H with
  | Some (_, _, ?x) = Some (_, _, ?t) =>
      let E := fresh "E" in
      assert (E : t = x) by congruence; rewrite E; clear E
  end.

(** ** Checks on concrete inputs *)

Example render_first : render_uid [x04; x4a; xf5; x6a; x2c; x59; x80] = "4 4a f5 6a 2c 59 80".
Proof. reflexivity. Qed.

Example render_zero : render_uid [x00; x0f; x10; xff] = "0 f 10 ff".
Proof. reflexivity. Qed.

Example check_first :
  check_uid authorizedUsers (render_uid [x04; x4a; xf5; x6a; x2c; x59; x80])
  = mkAccessResult true "Abdalla Nassar".
Proof. reflexivity. Qed.

Example scenario2 :
  loop (mkInputs 90 1000
          [mkPoll 1001 None;
           mkPoll 1500 (Some [x04; x4a; xf5; x6a; x2c; x59; x80]);
           mkPoll 1600 None]) initial_state
  = Some ([mkPoll 1600 None], mkState 1,
          [PrintlnFloat Serial 118; PrintlnFloat Serial 90;
           Println Serial "Please present NFC card for entry.";
           Println bluetooth "Please present NFC card for entry.";
           Println Serial "4 4a f5 6a 2c 59 80";
           Println Serial "Welcome Abdalla Nassar";
           Print Serial "Count of people: "; PrintlnInt Serial 1;
           Println bluetooth "Welcome Abdalla Nassar";
           Print bluetooth "Count of people: "; PrintlnInt bluetooth 1;
           DigitalWrite 7 HIGH; Delay 600; DigitalWrite 7 LOW;
           Delay 3000; PICC_HaltA]).
Proof. reflexivity. Qed.

(** ** Integer and binary32 branching *)

Lemma HeightClass_eqb_eq (a b : HeightClass) : HeightClass_eqb a b = true -> a = b.
Proof. destruct a, b; simpl; congruence. Qed.

(** For every reading below 1024 (the sensor answers at most [MAX_DISTANCE],
    400 centimetres) the binary32 branching and the integer
    one coincide. *)
Lemma float_loop_branch (reading : Z) :
  0 <= reading < 1024 -> Float32.classify reading = classify reading.
Proof.
  intros Hr.
  assert (H : forallb (fun k => HeightClass_eqb (Float32.classify (Z.of_nat k))
                                                (classify (Z.of_nat k)))
                      (seq 0 (Z.to_nat 1024)) = true) by (vm_compute; reflexivity).
  rewrite forallb_forall in H.
  specialize (H (Z.to_nat reading)).
  rewrite Z2Nat.id in H by lia.
  apply HeightClass_eqb_eq, H, in_seq.
  split; [apply Nat.le_0_l | ].
  rewrite Nat.add_0_l. apply Z2Nat.inj_lt; lia.
Qed.

(** ** Unfolding the sketch *)

Lemma process_result_granted (r : AccessResult) (st : State) :
  accessGranted r = true ->
  process_result r st
  = Some (true, mkState (wrap_int (peopleCount st + 1)),
          granted_feedback (userName r) (wrap_int (peopleCount st + 1))).
Proof.
  intros Hg. unfold process_result. rewrite Hg. reflexivity.
Qed.

Lemma process_result_rejected (r : AccessResult) (st : State) :
  accessGranted r = false ->
  process_result r st = Some (true, st, rejected_feedback).
Proof.
  intros Hg. unfold process_result. rewrite Hg. reflexivity.
Qed.

Lemma card_event_eq (uidByte : list byte) (st : State) :
  card_event uidByte st
  = Some (true, state_after_card uidByte st, trace_of_card uidByte st).
Proof.
  unfold card_event, state_after_card, trace_of_card, bind, println, emit.
  destruct (accessGranted (check_uid authorizedUsers (render_uid uidByte))) eqn:Hg.
  - rewrite (process_result_granted _ _ Hg). reflexivity.
  - rewrite (process_result_rejected _ _ Hg). reflexivity.
Qed.

Lemma card_wait_eq (start : Z) (ps : list Poll) (st : State) :
  card_wait start ps st
  = match window_exit start ps with
    | CardRead u rest => Some (rest, state_after_card u st, trace_of_card u st)
    | Timeout rest => Some (rest, st, [])
    | Exhausted => None
    end.
Proof.
  induction ps as [|p ps IH]; simpl; [reflexivity|].
  destruct (window_open start (millis p)); [|reflexivity].
  destruct (card p) as [u|]; [|exact IH].
  unfold bind. rewrite card_event_eq. simpl. rewrite app_nil_r. reflexivity.
Qed.

Lemma loop_eq (inp : Inputs) (st : State) :
  loop inp st
  = match classify (ping_cm inp) with
    | NoSubject =>
        Some (polls inp, st,
              prologue (ping_cm inp) ++ no_subject_feedback ++ [PICC_HaltA])%list
    | TooShort =>
        Some (polls inp, st,
              prologue (ping_cm inp) ++ too_short_feedback ++ [PICC_HaltA])%list
    | AtThreshold =>
        Some (polls inp, st, prologue (ping_cm inp) ++ [PICC_HaltA])%list
    | InRange =>
        match card_wait (startTime inp) (polls inp) st with
        | Some (rest, st', t) =>
            Some (rest, st',
                  prologue (ping_cm inp) ++ prompt_feedback ++ t ++ [PICC_HaltA])%list
        | None => None
        end
    end.
Proof.
  unfold loop, classify, height_of.
  destruct ((SENSOR_HEIGHT - ping_cm inp >? 0) && (SENSOR_HEIGHT - ping_cm inp <? 400)).
  - destruct (SENSOR_HEIGHT - ping_cm inp <? MIN_HEIGHT_FOR_ACCESS); [reflexivity|].
    destruct (SENSOR_HEIGHT - ping_cm inp >? MIN_HEIGHT_FOR_ACCESS); [|reflexivity].
    unfold bind at 1 2 3. simpl.
    unfold bind at 1 2. simpl.
    destruct (card_wait (startTime inp) (polls inp) st) as [[[rest st'] t]|]; reflexivity.
  - reflexivity.
Qed.

(** ** Height classes *)

Lemma classify_NoSubject_iff (d : Z) :
  classify d = NoSubject <-> height_of d <= 0 \/ height_of d >= 400.
Proof.
  unfold classify, MIN_HEIGHT_FOR_ACCESS.
  destruct (Z.gtb_spec (height_of d) 0), (Z.ltb_spec (height_of d) 400),
           (Z.ltb_spec (height_of d) 100), (Z.gtb_spec (height_of d) 100);
    simpl; split; intros Hc; try discriminate; try reflexivity; lia.
Qed.

Lemma classify_TooShort_iff (d : Z) :
  classify d = TooShort <-> 0 < height_of d < MIN_HEIGHT_FOR_ACCESS.
Proof.
  unfold classify, MIN_HEIGHT_FOR_ACCESS.
  destruct (Z.gtb_spec (height_of d) 0), (Z.ltb_spec (height_of d) 400),
           (Z.ltb_spec (height_of d) 100), (Z.gtb_spec (height_of d) 100);
    simpl; split; intros Hc; try discriminate; try reflexivity; lia.
Qed.

Lemma classify_InRange_iff (d : Z) :
  classify d = InRange <-> MIN_HEIGHT_FOR_ACCESS < height_of d < 400.
Proof.
  unfold classify, MIN_HEIGHT_FOR_ACCESS.
  destruct (Z.gtb_spec (height_of d) 0), (Z.ltb_spec (height_of d) 400),
           (Z.ltb_spec (height_of d) 100), (Z.gtb_spec (height_of d) 100);
    simpl; split; intros Hc; try discriminate; try reflexivity; lia.
Qed.

Lemma classify_AtThreshold_iff (d : Z) :
  classify d = AtThreshold <-> height_of d = MIN_HEIGHT_FOR_ACCESS.
Proof.
  unfold classify, MIN_HEIGHT_FOR_ACCESS.
  destruct (Z.gtb_spec (height_of d) 0), (Z.ltb_spec (height_of d) 400),
           (Z.ltb_spec (height_of d) 100), (Z.gtb_spec (height_of d) 100);
    simpl; split; intros Hc; try discriminate; try reflexivity; lia.
Qed.

(** C1 as the specification words it fails: the no-echo reading 0 gives the
    height 208, which lines 91 and 97 accept, so the sketch prompts for a
    card instead of reporting that nobody is under the sensor. *)
Lemma no_echo_reading_prompts_for_card :
  ~ (forall d : Z,
        d = NO_ECHO \/ height_of d <= 0 \/ height_of d >= 400 ->
        classify d = NoSubject)
  /\ height_of NO_ECHO = 208
  /\ classify NO_ECHO = InRange
  /\ loop (mkInputs NO_ECHO 0 [mkPoll 8000 None]) initial_state
     = Some ([], initial_state,
             [PrintlnFloat Serial 208; PrintlnFloat Serial 0;
              Println Serial "Please present NFC card for entry.";
              Println bluetooth "Please present NFC card for entry.";
              PICC_HaltA]).
Proof.
  split; [|repeat split].
  intros H. specialize (H NO_ECHO (or_introl eq_refl)). discriminate H.
Qed.

(** C1, amended: a reading whose height [SENSOR_HEIGHT - reading] is at most 0
    or at least 400 takes the "No one under the sensor." path: the call
    returns, the state is unchanged, no card is waited for, and the trace is
    that of the no-subject feedback.  No other reading takes that path: the
    no-echo reading 0 has the height 208 and is in range. *)
Theorem out_of_range_is_NoSubject (inp : Inputs) (st : State) :
  height_of (ping_cm inp) <= 0 \/ height_of (ping_cm inp) >= 400 ->
  classify (ping_cm inp) = NoSubject
  /\ classify (ping_cm inp) <> TooShort
  /\ classify (ping_cm inp) <> InRange
  /\ loop inp st
     = Some (polls inp, st,
             [PrintlnFloat Serial (height_of (ping_cm inp));
              PrintlnFloat Serial (ping_cm inp);
              Println Serial "No one under the sensor.";
              ToneAC BUZZER_PIN 1000 200; Delay 200;
              Delay 1500;
              PICC_HaltA])
  /\ (forall d, classify d = NoSubject -> height_of d <= 0 \/ height_of d >= 400)
  /\ height_of NO_ECHO = 208
  /\ classify NO_ECHO = InRange.
Proof.
  intros H. apply classify_NoSubject_iff in H.
  split; [exact H|]. split; [congruence|]. split; [congruence|].
  split; [|split; [|split; reflexivity]].
  - rewrite loop_eq, H. reflexivity.
  - intros d. apply classify_NoSubject_iff.
Qed.

Lemma out_of_range_is_NoSubject_witness :
  (height_of 208 <= 0 \/ height_of 208 >= 400)
  /\ classify 208 = NoSubject
  /\ loop (mkInputs 208 0 []) initial_state
     = Some ([], initial_state,
             [PrintlnFloat Serial 0; PrintlnFloat Serial 208;
              Println Serial "No one under the sensor.";
              ToneAC 7 1000 200; Delay 200; Delay 1500; PICC_HaltA]).
Proof.
  assert (H : height_of 208 <= 0 \/ height_of 208 >= 400)
    by (left; vm_compute; discriminate).
  destruct (out_of_range_is_NoSubject (mkInputs 208 0 []) initial_state H)
    as (Hc & _ & _ & Hl & _).
  split; [exact H|]. split; [exact Hc | exact Hl].
Defined.

(** C6: a reading whose height is exactly [MIN_HEIGHT_FOR_ACCESS] is neither
    too short nor in range.  The call prints the two measurements every
    iteration prints, dispatches no feedback, consumes nothing of the card
    script, leaves the state as it is and ends with the card-session halt. *)
Theorem threshold_falls_through (inp : Inputs) (st : State) :
  height_of (ping_cm inp) = MIN_HEIGHT_FOR_ACCESS ->
  classify (ping_cm inp) <> TooShort
  /\ classify (ping_cm inp) <> InRange
  /\ classify (ping_cm inp) <> NoSubject
  /\ iteration_outcome inp = None
  /\ loop inp st
     = Some (polls inp, st,
             [PrintlnFloat Serial 100; PrintlnFloat Serial 108; PICC_HaltA]).
Proof.
  intros H.
  assert (Hd : ping_cm inp = 108)
    by (unfold height_of, SENSOR_HEIGHT, MIN_HEIGHT_FOR_ACCESS in H; lia).
  apply classify_AtThreshold_iff in H.
  repeat split; try congruence.
  - unfold iteration_outcome. rewrite H. reflexivity.
  - rewrite loop_eq, H. unfold prologue. rewrite Hd. reflexivity.
Qed.

Lemma threshold_falls_through_witness :
  height_of 108 = MIN_HEIGHT_FOR_ACCESS
  /\ loop (mkInputs 108 0 [mkPoll 1 (Some [xfe; x8a; x02; xbf])]) initial_state
     = Some ([mkPoll 1 (Some [xfe; x8a; x02; xbf])], initial_state,
             [PrintlnFloat Serial 100; PrintlnFloat Serial 108; PICC_HaltA]).
Proof.
  assert (H : height_of 108 = MIN_HEIGHT_FOR_ACCESS) by reflexivity.
  split; [exact H|].
  exact (proj2 (proj2 (proj2 (proj2
    (threshold_falls_through
       (mkInputs 108 0 [mkPoll 1 (Some [xfe; x8a; x02; xbf])]) initial_state H))))).
Defined.

(** C7: heights strictly between 0 and [MIN_HEIGHT_FOR_ACCESS] are too short
    and get the denial and the fail tone without any card wait; heights
    strictly between [MIN_HEIGHT_FOR_ACCESS] and 400 are in range and get the
    prompt followed by the card wait; the reading 150 gives the height 58 and
    is too short. *)
Theorem short_and_tall_heights (inp : Inputs) (st : State) :
  (0 < height_of (ping_cm inp) < MIN_HEIGHT_FOR_ACCESS ->
   classify (ping_cm inp) = TooShort
   /\ loop inp st
      = Some (polls inp, st,
              [PrintlnFloat Serial (height_of (ping_cm inp));
               PrintlnFloat Serial (ping_cm inp);
               Println Serial "Entry denied: Person is too short.";
               Println bluetooth "Entry denied: Person is too short.";
               ToneAC BUZZER_PIN 1000 200; Delay 200;
               PICC_HaltA]))
  /\ (MIN_HEIGHT_FOR_ACCESS < height_of (ping_cm inp) < 400 ->
      classify (ping_cm inp) = InRange
      /\ loop inp st
         = match card_wait (startTime inp) (polls inp) st with
           | Some (rest, st', t) =>
               Some (rest, st',
                     [PrintlnFloat Serial (height_of (ping_cm inp));
                      PrintlnFloat Serial (ping_cm inp);
                      Println Serial "Please present NFC card for entry.";
                      Println bluetooth "Please present NFC card for entry."]
                     ++ t ++ [PICC_HaltA])%list
           | None => None
           end)
  /\ (SENSOR_HEIGHT = 208 /\ height_of 150 = 58 /\ classify 150 = TooShort
      /\ loop (mkInputs 150 (startTime inp) (polls inp)) st
         = Some (polls inp, st,
                 [PrintlnFloat Serial 58; PrintlnFloat Serial 150;
                  Println Serial "Entry denied: Person is too short.";
                  Println bluetooth "Entry denied: Person is too short.";
                  ToneAC BUZZER_PIN 1000 200; Delay 200;
                  PICC_HaltA])).
Proof.
  split; [|split].
  - intros H. apply classify_TooShort_iff in H. split; [exact H|].
    rewrite loop_eq, H. reflexivity.
  - intros H. apply classify_InRange_iff in H. split; [exact H|].
    rewrite loop_eq, H.
    destruct (card_wait (startTime inp) (polls inp) st) as [[[rest st'] t]|];
      reflexivity.
  - repeat split.
Qed.

Lemma short_and_tall_heights_witness :
  (0 < height_of 150 < MIN_HEIGHT_FOR_ACCESS /\ classify 150 = TooShort)
  /\ (MIN_HEIGHT_FOR_ACCESS < height_of 90 < 400 /\ classify 90 = InRange).
Proof.
  assert (H1 : 0 < height_of 150 < MIN_HEIGHT_FOR_ACCESS) by (split; reflexivity).
  assert (H2 : MIN_HEIGHT_FOR_ACCESS < height_of 90 < 400) by (split; reflexivity).
  split.
  - split; [exact H1|].
    exact (proj1 (proj1 (short_and_tall_heights (mkInputs 150 0 []) initial_state) H1)).
  - split; [exact H2|].
    exact (proj1 (proj1 (proj2 (short_and_tall_heights (mkInputs 90 0 []) initial_state)) H2)).
Defined.

(** ** Strings *)

Lemma append_assoc (a b c : string) : (a ++ b) ++ c = a ++ (b ++ c).
Proof. induction a as [|x a IH]; simpl; [reflexivity | now rewrite IH]. Qed.

Lemma append_nil_r (a : string) : a ++ "" = a.
Proof. induction a as [|x a IH]; simpl; [reflexivity | now rewrite IH]. Qed.

Lemma string_forallb_app (p : ascii -> bool) (a b : string) :
  string_forallb p (a ++ b) = string_forallb p a && string_forallb p b.
Proof.
  induction a as [|x a IH]; simpl; [reflexivity|].
  now rewrite IH, andb_assoc.
Qed.

(** ** Rendering *)

Lemma String_HEX_digits (b : byte) :
  String_HEX b
  = if (Byte.to_N b <? 16)%N
    then String (hex_digit (Byte.to_N b)) ""
    else String (hex_digit (Byte.to_N b / 16)) (String (hex_digit (Byte.to_N b mod 16)) "").
Proof. destruct b; reflexivity. Qed.

Lemma String_HEX_value (b : byte) : hex_value (String_HEX b) = Some (Byte.to_N b).
Proof. destruct b; reflexivity. Qed.

Lemma String_HEX_lower (b : byte) : string_forallb is_lower_hex (String_HEX b) = true.
Proof. destruct b; reflexivity. Qed.

Lemma uid_loop_concat (bytes : list byte) :
  forall (size i : Z) (acc : string),
    size = i + Z.of_nat (List.length bytes) ->
    uid_loop size i bytes acc = acc ++ String.concat " " (map String_HEX bytes).
Proof.
  induction bytes as [|b bytes IH]; intros size i acc Hsize; simpl.
  - now rewrite append_nil_r.
  - rewrite (IH size (i + 1)) by (simpl List.length in Hsize; lia).
    destruct bytes as [|b' bytes].
    + simpl in Hsize. replace (i <? size - 1) with false by (symmetry; apply Z.ltb_ge; lia).
      simpl. now rewrite !append_nil_r.
    + replace (i <? size - 1) with true
        by (symmetry; apply Z.ltb_lt; simpl List.length in Hsize; lia).
      cbn [map String.concat]. now rewrite !append_assoc.
Qed.

Lemma render_uid_concat (uidByte : list byte) :
  render_uid uidByte = String.concat " " (map String_HEX uidByte).
Proof.
  unfold render_uid. rewrite (uid_loop_concat uidByte) by lia. reflexivity.
Qed.

Lemma concat_snoc (sep : string) (l : list string) (x : string) :
  String.concat sep (l ++ [x])
  = match l with
    | [] => x
    | _ => String.concat sep l ++ sep ++ x
    end.
Proof.
  induction l as [|y l IH]; [reflexivity|].
  destruct l as [|z l]; [reflexivity|].
  change (String.concat sep ((y :: z :: l) ++ [x]))
    with (y ++ sep ++ String.concat sep ((z :: l) ++ [x])).
  rewrite IH. cbn [String.concat]. now rewrite !append_assoc.
Qed.

Lemma render_uid_lower (uidByte : list byte) :
  string_forallb is_lower_hex_or_space (render_uid uidByte) = true.
Proof.
  assert (Htok : forall b, string_forallb is_lower_hex_or_space (String_HEX b) = true)
    by (intros b; destruct b; reflexivity).
  rewrite render_uid_concat.
  induction uidByte as [|b l IH]; [reflexivity|].
  destruct l as [|b' l]; [apply Htok|].
  change (String.concat " " (map String_HEX (b :: b' :: l)))
    with (String_HEX b ++ " " ++ String.concat " " (map String_HEX (b' :: l))).
  rewrite !string_forallb_app, Htok, IH. reflexivity.
Qed.

(** C5: the identifier of a card is the hexadecimal numerals of its bytes,
    in order, separated by single spaces and with nothing after the last one.
    A numeral has one digit for a byte below 16 and two digits otherwise, so it
    is never padded; its digits are lowercase and it reads back as the byte. *)
Theorem render_uid_format (uidByte : list byte) (b : byte) :
  render_uid uidByte = String.concat " " (map String_HEX uidByte)
  /\ render_uid (uidByte ++ [b])
     = match uidByte with
       | [] => String_HEX b
       | _ => render_uid uidByte ++ " " ++ String_HEX b
       end
  /\ String_HEX b
     = (if (Byte.to_N b <? 16)%N
        then String (hex_digit (Byte.to_N b)) ""
        else String (hex_digit (Byte.to_N b / 16))
                    (String (hex_digit (Byte.to_N b mod 16)) ""))
  /\ hex_value (String_HEX b) = Some (Byte.to_N b)
  /\ string_forallb is_lower_hex (String_HEX b) = true.
Proof.
  split; [apply render_uid_concat|].
  split; [|split; [apply String_HEX_digits|split;
                   [apply String_HEX_value|apply String_HEX_lower]]].
  rewrite !render_uid_concat, map_app. cbn [map].
  rewrite concat_snoc. destruct uidByte; reflexivity.
Qed.

(** ** Lookup *)

Lemma match_loop_none (users : list User) (s : string) (r : AccessResult) :
  (forall v, In v users -> uid v <> s) -> match_loop users s r = r.
Proof.
  induction users as [|u users IH]; intros Hno; simpl; [reflexivity|].
  destruct (String.eqb_spec s (uid u)) as [E|_].
  - exfalso. apply (Hno u); [now left | now symmetry].
  - apply IH. intros v Hv. apply Hno. now right.
Qed.

Lemma match_loop_first (pre post : list User) (u : User) (s : string) (r : AccessResult) :
  uid u = s ->
  (forall v, In v pre -> uid v <> s) ->
  match_loop (pre ++ u :: post) s r = mkAccessResult true (name u).
Proof.
  intros Hu. induction pre as [|w pre IH]; intros Hno; simpl.
  - rewrite <- Hu, String.eqb_refl. reflexivity.
  - destruct (String.eqb_spec s (uid w)) as [E|_].
    + exfalso. apply (Hno w); [now left | now symmetry].
    + apply IH. intros v Hv. apply Hno. now right.
Qed.

(** C2: the lookup walks the table in order and compares with exact string
    equality.  The first entry whose identifier equals the scanned one gives
    the name; the entries after it do not matter.  With two entries of the
    same identifier the earlier one is named.  When no entry is equal the
    result is a rejection, and a difference of letter case is a difference. *)
Theorem first_match_wins (users : list User) (s : string) :
  (forall pre u post,
      users = (pre ++ u :: post)%list ->
      uid u = s ->
      (forall v, In v pre -> uid v <> s) ->
      check_uid users s = mkAccessResult true (name u))
  /\ ((forall v, In v users -> uid v <> s) ->
      check_uid users s = mkAccessResult false ""
      /\ forall st, process_result (check_uid users s) st
                    = Some (true, st,
                            [Println Serial "Access denied";
                             Println bluetooth "Access denied";
                             ToneAC BUZZER_PIN 1000 200; Delay 200;
                             Delay 1000]))
  /\ check_uid [mkUser "A" "aa bb"; mkUser "B" "aa bb"] "aa bb"
     = mkAccessResult true "A"
  /\ check_uid [mkUser "A" "AA BB"; mkUser "B" "aa bb"] "aa bb"
     = mkAccessResult true "B"
  /\ check_uid [mkUser "A" "AA BB"] "aa bb" = mkAccessResult false "".
Proof.
  split; [|split; [|repeat split]].
  - intros pre u post -> Hu Hno. apply match_loop_first; assumption.
  - intros Hno. unfold check_uid. rewrite (match_loop_none _ _ _ Hno).
    split; reflexivity.
Qed.

Lemma first_match_wins_witness :
  check_uid authorizedUsers "fe 8a 2 bf" = mkAccessResult true "Nafea"
  /\ check_uid authorizedUsers "ff ff ff" = mkAccessResult false "".
Proof.
  split.
  - apply (proj1 (first_match_wins authorizedUsers "fe 8a 2 bf")
             [mkUser "Abdalla Nassar" "4 4a f5 6a 2c 59 80"]
             (mkUser "Nafea" "fe 8a 2 bf")
             [mkUser "samy" "9F 30 19 89"]).
    + reflexivity.
    + reflexivity.
    + intros v [<-|[]]. simpl. discriminate.
  - apply (proj1 (proj2 (first_match_wins authorizedUsers "ff ff ff"))).
    intros v [<-|[<-|[<-|[]]]]; simpl; discriminate.
Defined.

(** ** The uppercase entry *)

Lemma render_uid_not_samy (uidByte : list byte) : render_uid uidByte <> "9F 30 19 89".
Proof.
  intros E. pose proof (render_uid_lower uidByte) as H.
  rewrite E in H. discriminate H.
Qed.

(** C10: an identifier rendered from a card has only lowercase hexadecimal
    digits and spaces.  The third entry of the table, "9F 30 19 89" of user
    "samy", has an uppercase letter, is therefore equal to no rendered
    identifier, and no card is ever granted access under that name: a granted
    card is named after one of the first two entries. *)
Theorem uppercase_entry_never_matches (uidByte : list byte) :
  string_forallb is_lower_hex_or_space (render_uid uidByte) = true
  /\ nth_error authorizedUsers 2 = Some (mkUser "samy" "9F 30 19 89")
  /\ string_forallb is_lower_hex_or_space "9F 30 19 89" = false
  /\ String.eqb (render_uid uidByte) "9F 30 19 89" = false
  /\ userName (check_uid authorizedUsers (render_uid uidByte)) <> "samy"
  /\ (accessGranted (check_uid authorizedUsers (render_uid uidByte)) = true ->
      userName (check_uid authorizedUsers (render_uid uidByte)) = "Abdalla Nassar"
      \/ userName (check_uid authorizedUsers (render_uid uidByte)) = "Nafea").
Proof.
  pose proof (render_uid_not_samy uidByte) as Hne.
  apply String.eqb_neq in Hne.
  split; [apply render_uid_lower|].
  split; [reflexivity|]. split; [reflexivity|]. split; [exact Hne|].
  unfold check_uid, authorizedUsers, match_loop.
  cbn [uid name]. rewrite Hne.
  destruct (String.eqb (render_uid uidByte) "4 4a f5 6a 2c 59 80");
    [|destruct (String.eqb (render_uid uidByte) "fe 8a 2 bf")];
    cbn [userName accessGranted]; split; try discriminate; auto.
Qed.

Lemma uppercase_entry_never_matches_witness :
  accessGranted (check_uid authorizedUsers (render_uid [x9f; x30; x19; x89])) = false
  /\ (userName (check_uid authorizedUsers (render_uid [xfe; x8a; x02; xbf])) = "Abdalla Nassar"
      \/ userName (check_uid authorizedUsers (render_uid [xfe; x8a; x02; xbf])) = "Nafea").
Proof.
  split; [reflexivity|].
  apply (proj2 (proj2 (proj2 (proj2 (proj2
           (uppercase_entry_never_matches [xfe; x8a; x02; xbf])))))).
  reflexivity.
Defined.

(** ** The card-wait window *)

Lemma window_open_iff (start now : Z) :
  window_open start now = true <-> (now - start) mod 2 ^ 32 < 8000.
Proof. unfold window_open, wrap_ulong. apply Z.ltb_lt. Qed.

Lemma window_exit_quiet (start : Z) (pre ps : list Poll) :
  Forall (quiet start) pre ->
  window_exit start (pre ++ ps) = window_exit start ps.
Proof.
  induction 1 as [|q pre [Ho Hc] _ IH]; simpl; [reflexivity|].
  now rewrite Ho, Hc.
Qed.

Lemma window_exit_timeout (start : Z) (pre post : list Poll) (p : Poll) :
  Forall (quiet start) pre ->
  window_open start (millis p) = false ->
  window_exit start (pre ++ p :: post) = Timeout post.
Proof.
  intros Hq Hp. rewrite (window_exit_quiet _ _ _ Hq). simpl. now rewrite Hp.
Qed.

Lemma window_exit_card (start : Z) (pre post : list Poll) (p : Poll) (u : list byte) :
  Forall (quiet start) pre ->
  window_open start (millis p) = true ->
  card p = Some u ->
  window_exit start (pre ++ p :: post) = CardRead u post.
Proof.
  intros Hq Hp Hc. rewrite (window_exit_quiet _ _ _ Hq). simpl. now rewrite Hp, Hc.
Qed.

(** Every exit of the window comes from a script of one of the two shapes. *)
Lemma window_exit_inv (start : Z) (ps : list Poll) :
  match window_exit start ps with
  | CardRead u rest =>
      exists pre p, ps = (pre ++ p :: rest)%list /\ Forall (quiet start) pre
                    /\ window_open start (millis p) = true /\ card p = Some u
  | Timeout rest =>
      exists pre p, ps = (pre ++ p :: rest)%list /\ Forall (quiet start) pre
                    /\ window_open start (millis p) = false
  | Exhausted => Forall (quiet start) ps
  end.
Proof.
  induction ps as [|q ps IH]; simpl; [constructor|].
  destruct (window_open start (millis q)) eqn:Ho.
  - destruct (card q) as [u|] eqn:Hc.
    + exists [], q. repeat split; auto.
    + destruct (window_exit start ps) as [u rest|rest|].
      * destruct IH as (pre & p & -> & Hq & Hp & Hu).
        exists (q :: pre), p. repeat split; auto. constructor; [split|]; assumption.
      * destruct IH as (pre & p & -> & Hq & Hp).
        exists (q :: pre), p. repeat split; auto. constructor; [split|]; assumption.
      * constructor; [split|]; assumption.
  - exists [], q. repeat split; auto.
Qed.

Lemma loop_timeout (inp : Inputs) (st : State) (pre post : list Poll) (p : Poll) :
  classify (ping_cm inp) = InRange ->
  polls inp = (pre ++ p :: post)%list ->
  Forall (quiet (startTime inp)) pre ->
  window_open (startTime inp) (millis p) = false ->
  loop inp st
  = Some (post, st, prologue (ping_cm inp) ++ prompt_feedback ++ [PICC_HaltA])%list.
Proof.
  intros Hc Hp Hq Ho.
  rewrite loop_eq, Hc, card_wait_eq, Hp, (window_exit_timeout _ _ _ _ Hq Ho).
  reflexivity.
Qed.

Lemma loop_card_read (inp : Inputs) (st : State) (pre post : list Poll) (p : Poll)
      (u : list byte) :
  classify (ping_cm inp) = InRange ->
  polls inp = (pre ++ p :: post)%list ->
  Forall (quiet (startTime inp)) pre ->
  window_open (startTime inp) (millis p) = true ->
  card p = Some u ->
  loop inp st
  = Some (post, state_after_card u st,
          prologue (ping_cm inp) ++ prompt_feedback
          ++ trace_of_card u st ++ [PICC_HaltA])%list.
Proof.
  intros Hc Hp Hq Ho Hu.
  rewrite loop_eq, Hc, card_wait_eq, Hp, (window_exit_card _ _ _ _ _ Hq Ho Hu).
  reflexivity.
Qed.

(** [loop] returns as soon as the script holds a turn on which the window
    is closed or a card is read; off the card path it returns whatever the
    script. *)
Lemma loop_returns (inp : Inputs) (st : State) :
  classify (ping_cm inp) <> InRange
  \/ Exists (fun p => window_open (startTime inp) (millis p) = false
                      \/ card p <> None) (polls inp) ->
  exists rest st' t, loop inp st = Some (rest, st', t).
Proof.
  intros H. rewrite loop_eq, card_wait_eq.
  destruct (classify (ping_cm inp)) eqn:Hc; try (eexists _, _, _; reflexivity).
  destruct H as [H|H]; [congruence|].
  pose proof (window_exit_inv (startTime inp) (polls inp)) as Hinv.
  destruct (window_exit (startTime inp) (polls inp)) as [u r|r|];
    try (eexists _, _, _; reflexivity).
  exfalso. rewrite Exists_exists in H. destruct H as (p & Hin & Hp).
  rewrite Forall_forall in Hinv. destruct (Hinv p Hin) as [Ho Hn].
  destruct Hp as [Hp|Hp]; congruence.
Qed.

(** C4: when the height is in range and the script of the wait loop is a run
    of turns with the window open and no card read, followed by a turn on
    which 8000 ms or more have passed, the call returns with the state
    unchanged and a trace that holds the two measurements, the prompt and
    the card-session halt and nothing else: no outcome was computed, no
    outcome message was sent and the buzzer was not driven. *)
Theorem silent_timeout (inp : Inputs) (st : State) (pre post : list Poll) (p : Poll) :
  MIN_HEIGHT_FOR_ACCESS < height_of (ping_cm inp) < 400 ->
  polls inp = (pre ++ p :: post)%list ->
  Forall (quiet (startTime inp)) pre ->
  8000 <= wrap_ulong (millis p - startTime inp) ->
  loop inp st
  = Some (post, st,
          [PrintlnFloat Serial (height_of (ping_cm inp));
           PrintlnFloat Serial (ping_cm inp);
           Println Serial "Please present NFC card for entry.";
           Println bluetooth "Please present NFC card for entry.";
           PICC_HaltA])
  /\ iteration_outcome inp = None.
Proof.
  intros Hh Hp Hq Ht.
  apply classify_InRange_iff in Hh.
  assert (Ho : window_open (startTime inp) (millis p) = false)
    by (unfold window_open; apply Z.ltb_ge; exact Ht).
  split.
  - rewrite (loop_timeout inp st pre post p Hh Hp Hq Ho). reflexivity.
  - unfold iteration_outcome.
    rewrite Hh, Hp, (window_exit_timeout _ _ _ _ Hq Ho). reflexivity.
Qed.

Lemma silent_timeout_witness :
  loop (mkInputs 90 1000 [mkPoll 1000 None; mkPoll 5000 None; mkPoll 9000 None;
                          mkPoll 9001 (Some [xfe; x8a; x02; xbf])])
       initial_state
  = Some ([mkPoll 9001 (Some [xfe; x8a; x02; xbf])], initial_state,
          [PrintlnFloat Serial 118; PrintlnFloat Serial 90;
           Println Serial "Please present NFC card for entry.";
           Println bluetooth "Please present NFC card for entry.";
           PICC_HaltA]).
Proof.
  refine (proj1 (silent_timeout
            (mkInputs 90 1000 [mkPoll 1000 None; mkPoll 5000 None; mkPoll 9000 None;
                               mkPoll 9001 (Some [xfe; x8a; x02; xbf])])
            initial_state
            [mkPoll 1000 None; mkPoll 5000 None] [mkPoll 9001 (Some [xfe; x8a; x02; xbf])]
            (mkPoll 9000 None) _ _ _ _)).
  - split; reflexivity.
  - reflexivity.
  - repeat constructor.
  - vm_compute. discriminate.
Defined.

(** ** Outcomes in a trace *)

Lemma lower_line_is_no_outcome (s : string) :
  string_forallb is_lower_hex_or_space s = true ->
  is_outcome_line (Println Serial s) = false.
Proof.
  destruct s as [|c s]; [reflexivity|].
  destruct c as [b0 b1 b2 b3 b4 b5 b6 b7].
  destruct b0, b1, b2, b3, b4, b5, b6, b7;
    (discriminate || (intros _; reflexivity)).
Qed.

Lemma outcomes_trace_of_card (u : list byte) (st : State) :
  outcomes (trace_of_card u st) = 1%nat.
Proof.
  unfold outcomes, trace_of_card. cbn [filter].
  rewrite (lower_line_is_no_outcome _ (render_uid_lower u)).
  destruct (accessGranted (check_uid authorizedUsers (render_uid u))); reflexivity.
Qed.

Lemma outcomes_app (a b : list Effect) : outcomes (a ++ b) = (outcomes a + outcomes b)%nat.
Proof. unfold outcomes. now rewrite filter_app, length_app. Qed.

Lemma outcomes_loop (inp : Inputs) (st st' : State) (rest : list Poll) (t : list Effect) :
  loop inp st = Some (rest, st', t) ->
  outcomes t = match iteration_outcome inp with Some _ => 1%nat | None => 0%nat end.
Proof.
  rewrite loop_eq, card_wait_eq. unfold iteration_outcome.
  destruct (classify (ping_cm inp)); try (intros Hl; trace_from Hl; reflexivity).
  destruct (window_exit (startTime inp) (polls inp)) as [u r|r|];
    intros Hl; try discriminate Hl; trace_from Hl.
  - rewrite !outcomes_app, outcomes_trace_of_card. reflexivity.
  - reflexivity.
Qed.

(** C8: a call of [loop] acts on at most one [AccessResult].  Whatever the
    script, the trace of a call holds at most one outcome line, and it holds
    one exactly when a card was read inside the window.  When the wait loop
    sees a run of turns without a card and then a card inside the window, that
    card alone is looked up, matched or not; the call ends with the halt right
    after its feedback and the turns after it stay unconsumed, cards
    included. *)
Theorem one_outcome_per_window (inp : Inputs) (st : State) :
  (forall rest st' t,
      loop inp st = Some (rest, st', t) ->
      (outcomes t <= 1)%nat
      /\ (outcomes t = 1%nat <-> iteration_outcome inp <> None))
  /\ (forall pre p u post,
         classify (ping_cm inp) = InRange ->
         polls inp = (pre ++ p :: post)%list ->
         Forall (quiet (startTime inp)) pre ->
         window_open (startTime inp) (millis p) = true ->
         card p = Some u ->
         iteration_outcome inp = Some (check_uid authorizedUsers (render_uid u))
         /\ exists st' feedback,
             process_result (check_uid authorizedUsers (render_uid u)) st
             = Some (true, st', feedback)
             /\ loop inp st
                = Some (post, st',
                        [PrintlnFloat Serial (height_of (ping_cm inp));
                         PrintlnFloat Serial (ping_cm inp);
                         Println Serial "Please present NFC card for entry.";
                         Println bluetooth "Please present NFC card for entry.";
                         Println Serial (render_uid u)]
                        ++ feedback ++ [PICC_HaltA])%list).
Proof.
  split.
  - intros rest st' t Hl. rewrite (outcomes_loop _ _ _ _ _ Hl).
    destruct (iteration_outcome inp); split; try lia; split; congruence.
  - intros pre p u post Hc Hp Hq Ho Hu. split.
    + unfold iteration_outcome.
      rewrite Hc, Hp, (window_exit_card _ _ _ _ _ Hq Ho Hu). reflexivity.
    + rewrite (loop_card_read inp st pre post p u Hc Hp Hq Ho Hu).
      unfold state_after_card, trace_of_card.
      destruct (accessGranted (check_uid authorizedUsers (render_uid u))) eqn:Hg.
      * rewrite (process_result_granted _ _ Hg). eexists _, _. split; reflexivity.
      * rewrite (process_result_rejected _ _ Hg). eexists _, _. split; reflexivity.
Qed.

Lemma one_outcome_per_window_witness :
  loop (mkInputs 90 1000 [mkPoll 1001 None;
                          mkPoll 1500 (Some [xff; xff; xff]);
                          mkPoll 1600 (Some [xfe; x8a; x02; xbf])])
       initial_state
  = Some ([mkPoll 1600 (Some [xfe; x8a; x02; xbf])], initial_state,
          [PrintlnFloat Serial 118; PrintlnFloat Serial 90;
           Println Serial "Please present NFC card for entry.";
           Println bluetooth "Please present NFC card for entry.";
           Println Serial "ff ff ff";
           Println Serial "Access denied"; Println bluetooth "Access denied";
           ToneAC 7 1000 200; Delay 200; Delay 1000;
           PICC_HaltA])
  /\ (outcomes [PrintlnFloat Serial 118; PrintlnFloat Serial 90;
                Println Serial "Please present NFC card for entry.";
                Println bluetooth "Please present NFC card for entry.";
                Println Serial "ff ff ff";
                Println Serial "Access denied"; Println bluetooth "Access denied";
                ToneAC 7 1000 200; Delay 200; Delay 1000;
                PICC_HaltA] <= 1)%nat.
Proof.
  pose (inp := mkInputs 90 1000 [mkPoll 1001 None;
                                 mkPoll 1500 (Some [xff; xff; xff]);
                                 mkPoll 1600 (Some [xfe; x8a; x02; xbf])]).
  assert (Hl : loop inp initial_state
               = Some ([mkPoll 1600 (Some [xfe; x8a; x02; xbf])], initial_state,
                       [PrintlnFloat Serial 118; PrintlnFloat Serial 90;
                        Println Serial "Please present NFC card for entry.";
                        Println bluetooth "Please present NFC card for entry.";
                        Println Serial "ff ff ff";
                        Println Serial "Access denied"; Println bluetooth "Access denied";
                        ToneAC 7 1000 200; Delay 200; Delay 1000;
                        PICC_HaltA])).
  { assert (Hq : Forall (quiet (startTime inp)) [mkPoll 1001 None])
      by (repeat constructor).
    destruct (proj2 (one_outcome_per_window inp initial_state)
                [mkPoll 1001 None] (mkPoll 1500 (Some [xff; xff; xff])) [xff; xff; xff]
                [mkPoll 1600 (Some [xfe; x8a; x02; xbf])]
                eq_refl eq_refl Hq eq_refl eq_refl)
      as (_ & st' & fb & Hp & Hl).
    injection Hp as <- <-. exact Hl. }
  split; [exact Hl|].
  exact (proj1 (proj1 (one_outcome_per_window inp initial_state) _ _ _ Hl)).
Defined.

(** ** The granted path *)

Lemma wrap_int_succ (c : Z) : INT_MIN <= c < INT_MAX -> wrap_int (c + 1) = c + 1.
Proof.
  unfold INT_MIN, INT_MAX, wrap_int. intros H.
  rewrite Z.mod_small by lia. lia.
Qed.

(** C9: when the looked-up result is a grant, the counter is incremented
    first and everything after it shows the new value: the welcome line and
    the count line go to the local log, then the same two to the wireless
    link, then the buzzer pin goes high, stays high for 600 ms and goes low,
    then the sketch waits 3000 ms.  In a call of [loop] these effects follow
    the prompt and the printed identifier and are followed by the halt only;
    nothing is left out and nothing is put in between. *)
Theorem granted_effect_order (r : AccessResult) (st : State) :
  accessGranted r = true ->
  process_result r st
  = Some (true, mkState (wrap_int (peopleCount st + 1)),
          [Println Serial ("Welcome " ++ userName r);
           Print Serial "Count of people: ";
           PrintlnInt Serial (wrap_int (peopleCount st + 1));
           Println bluetooth ("Welcome " ++ userName r);
           Print bluetooth "Count of people: ";
           PrintlnInt bluetooth (wrap_int (peopleCount st + 1));
           DigitalWrite BUZZER_PIN HIGH; Delay 600; DigitalWrite BUZZER_PIN LOW;
           Delay 3000])
  /\ (exists hold,
         500 <= hold <= 600
         /\ soundBuzzerSuccess st
            = Some (tt, st, [DigitalWrite BUZZER_PIN HIGH; Delay hold;
                             DigitalWrite BUZZER_PIN LOW]))
  /\ (INT_MIN <= peopleCount st < INT_MAX ->
      wrap_int (peopleCount st + 1) = peopleCount st + 1)
  /\ (forall inp pre p u post,
         classify (ping_cm inp) = InRange ->
         polls inp = (pre ++ p :: post)%list ->
         Forall (quiet (startTime inp)) pre ->
         window_open (startTime inp) (millis p) = true ->
         card p = Some u ->
         check_uid authorizedUsers (render_uid u) = r ->
         loop inp st
         = Some (post, mkState (wrap_int (peopleCount st + 1)),
                 [PrintlnFloat Serial (height_of (ping_cm inp));
                  PrintlnFloat Serial (ping_cm inp);
                  Println Serial "Please present NFC card for entry.";
                  Println bluetooth "Please present NFC card for entry.";
                  Println Serial (render_uid u);
                  Println Serial ("Welcome " ++ userName r);
                  Print Serial "Count of people: ";
                  PrintlnInt Serial (wrap_int (peopleCount st + 1));
                  Println bluetooth ("Welcome " ++ userName r);
                  Print bluetooth "Count of people: ";
                  PrintlnInt bluetooth (wrap_int (peopleCount st + 1));
                  DigitalWrite BUZZER_PIN HIGH; Delay 600; DigitalWrite BUZZER_PIN LOW;
                  Delay 3000;
                  PICC_HaltA])).
Proof.
  intros Hg. split; [|split; [|split]].
  - rewrite (process_result_granted r st Hg). reflexivity.
  - exists 600. split; [lia | reflexivity].
  - apply wrap_int_succ.
  - intros inp pre p u post Hc Hp Hq Ho Hu Hr.
    rewrite (loop_card_read inp st pre post p u Hc Hp Hq Ho Hu).
    unfold state_after_card, trace_of_card. rewrite Hr, Hg. reflexivity.
Qed.

Lemma granted_effect_order_witness :
  process_result (mkAccessResult true "Nafea") initial_state
  = Some (true, mkState 1,
          [Println Serial "Welcome Nafea";
           Print Serial "Count of people: "; PrintlnInt Serial 1;
           Println bluetooth "Welcome Nafea";
           Print bluetooth "Count of people: "; PrintlnInt bluetooth 1;
           DigitalWrite 7 HIGH; Delay 600; DigitalWrite 7 LOW;
           Delay 3000]).
Proof.
  exact (proj1 (granted_effect_order (mkAccessResult true "Nafea") initial_state eq_refl)).
Defined.

(** ** The people counter *)

Lemma loop_peopleCount (inp : Inputs) (st st' : State) (rest : list Poll) (t : list Effect) :
  loop inp st = Some (rest, st', t) ->
  peopleCount st'
  = if granted_iteration inp then wrap_int (peopleCount st + 1) else peopleCount st.
Proof.
  rewrite loop_eq, card_wait_eq. unfold granted_iteration, iteration_outcome.
  destruct (classify (ping_cm inp)); try (intros H; congruence).
  destruct (window_exit (startTime inp) (polls inp)) as [u r|r|];
    intros H; try congruence.
  assert (E : st' = state_after_card u st) by congruence.
  rewrite E. unfold state_after_card.
  destruct (accessGranted (check_uid authorizedUsers (render_uid u))); reflexivity.
Qed.

Lemma run_peopleCount (ins : list Inputs) :
  forall st final,
    run ins st = Some final ->
    INT_MIN <= peopleCount st ->
    peopleCount st + Z.of_nat (count_granted ins) <= INT_MAX ->
    peopleCount final = peopleCount st + Z.of_nat (count_granted ins).
Proof.
  unfold count_granted.
  induction ins as [|inp ins IH]; intros st final Hrun Hlo Hhi; simpl in *.
  - injection Hrun as <-. lia.
  - destruct (loop inp st) as [[[rest st'] t]|] eqn:Hl; [|discriminate].
    pose proof (loop_peopleCount _ _ _ _ _ Hl) as Hc.
    destruct (granted_iteration inp); simpl List.length in *.
    + rewrite wrap_int_succ in Hc by lia.
      rewrite (IH st' final Hrun) by lia. lia.
    + rewrite (IH st' final Hrun) by lia. lia.
Qed.

Lemma run_granted_visits (n : nat) (st : State) :
  INT_MIN <= peopleCount st ->
  peopleCount st + Z.of_nat n <= INT_MAX ->
  run (repeat granted_visit n) st = Some (mkState (peopleCount st + Z.of_nat n)).
Proof.
  revert st. induction n as [|n IH]; intros st Hlo Hhi.
  - simpl. destruct st as [c]. simpl. now rewrite Z.add_0_r.
  - cbn [repeat run].
    rewrite (loop_card_read granted_visit st [] []
               (mkPoll 1 (Some [xfe; x8a; x02; xbf])) [xfe; x8a; x02; xbf])
      by (reflexivity || constructor).
    change (state_after_card [xfe; x8a; x02; xbf] st)
      with (mkState (wrap_int (peopleCount st + 1))).
    rewrite wrap_int_succ by lia.
    rewrite IH; cbn [peopleCount]; [f_equal; f_equal; lia | lia | lia].
Qed.

(** C3 as the specification words it fails once the 16-bit counter is full:
    after 32767 granted visits the counter holds [INT_MAX], and the next
    granted visit takes it to [INT_MIN]. *)
Lemma peopleCount_wraps_at_INT_MAX :
  run (repeat granted_visit (Z.to_nat 32767)) initial_state = Some (mkState 32767)
  /\ granted_iteration granted_visit = true
  /\ (exists t, loop granted_visit (mkState 32767) = Some ([], mkState (-32768), t))
  /\ ~ (forall (ins : list Inputs) (inp : Inputs) (st st' : State)
               (rest : list Poll) (t : list Effect),
           run ins initial_state = Some st ->
           loop inp st = Some (rest, st', t) ->
           peopleCount st <= peopleCount st').
Proof.
  assert (Hrun : run (repeat granted_visit (Z.to_nat 32767)) initial_state
                 = Some (mkState 32767)).
  { rewrite run_granted_visits; [reflexivity | | ]; vm_compute; discriminate. }
  split; [exact Hrun|]. split; [reflexivity|]. split; [eexists; reflexivity|].
  intros H.
  specialize (H _ granted_visit _ (mkState (-32768)) []
                (prologue 90 ++ prompt_feedback
                 ++ trace_of_card [xfe; x8a; x02; xbf] (mkState 32767)
                 ++ [PICC_HaltA])%list Hrun eq_refl).
  vm_compute in H. apply H. reflexivity.
Qed.

(** C3, amended: the counter starts at 0 and [setup] does not touch it.  A
    call of [loop] changes it only when a card read inside the window is
    granted, and then, as long as the counter is below [INT_MAX], by exactly
    one; below [INT_MAX] it therefore never goes down.  The no-subject path,
    the too-short path, a window that closes without a card and a rejected
    card leave it as it was, whatever its value.  Over any number of calls the
    counter equals the number of granted calls as long as that number is at
    most [INT_MAX]. *)
Theorem peopleCount_evolution (ins : list Inputs) (inp : Inputs) (st st' : State)
        (rest : list Poll) (t : list Effect) :
  loop inp st = Some (rest, st', t) ->
  peopleCount initial_state = 0
  /\ (exists t0, setup initial_state = Some (tt, initial_state, t0))
  /\ (granted_iteration inp = true ->
      INT_MIN <= peopleCount st < INT_MAX ->
      peopleCount st' = peopleCount st + 1)
  /\ (granted_iteration inp = false -> peopleCount st' = peopleCount st)
  /\ (INT_MIN <= peopleCount st < INT_MAX ->
      peopleCount st <= peopleCount st' <= peopleCount st + 1)
  /\ (classify (ping_cm inp) = NoSubject
      \/ classify (ping_cm inp) = TooShort
      \/ iteration_outcome inp = None
      \/ (exists r, iteration_outcome inp = Some r /\ accessGranted r = false) ->
      peopleCount st' = peopleCount st)
  /\ (forall final,
         run ins initial_state = Some final ->
         Z.of_nat (count_granted ins) <= INT_MAX ->
         peopleCount final = Z.of_nat (count_granted ins)).
Proof.
  intros Hl. pose proof (loop_peopleCount _ _ _ _ _ Hl) as Hc.
  split; [reflexivity|]. split; [eexists; reflexivity|].
  split; [|split; [|split; [|split]]].
  - intros Hg Hb. rewrite Hg in Hc. rewrite Hc. now apply wrap_int_succ.
  - intros Hg. now rewrite Hg in Hc.
  - intros Hb. destruct (granted_iteration inp).
    + rewrite Hc, wrap_int_succ by exact Hb. lia.
    + lia.
  - intros Hpath.
    assert (Hg : granted_iteration inp = false).
    { unfold granted_iteration, iteration_outcome in *.
      destruct Hpath as [E|[E|[E|(r & E & Hr)]]].
      - now rewrite E.
      - now rewrite E.
      - now rewrite E.
      - rewrite E. exact Hr. }
    now rewrite Hg in Hc.
  - intros final Hrun Hn.
    rewrite (run_peopleCount ins initial_state final Hrun); cbn [peopleCount initial_state].
    + lia.
    + unfold INT_MIN. lia.
    + lia.
Qed.

Lemma peopleCount_evolution_witness :
  loop granted_visit (mkState 41) = Some ([], mkState 42, 
      [PrintlnFloat Serial 118; PrintlnFloat Serial 90;
       Println Serial "Please present NFC card for entry.";
       Println bluetooth "Please present NFC card for entry.";
       Println Serial "fe 8a 2 bf";
       Println Serial "Welcome Nafea";
       Print Serial "Count of people: "; PrintlnInt Serial 42;
       Println bluetooth "Welcome Nafea";
       Print bluetooth "Count of people: "; PrintlnInt bluetooth 42;
       DigitalWrite 7 HIGH; Delay 600; DigitalWrite 7 LOW;
       Delay 3000; PICC_HaltA])
  /\ peopleCount (mkState 42) = peopleCount (mkState 41) + 1.
Proof.
  assert (Hl : loop granted_visit (mkState 41) = Some ([], mkState 42, 
      [PrintlnFloat Serial 118; PrintlnFloat Serial 90;
       Println Serial "Please present NFC card for entry.";
       Println bluetooth "Please present NFC card for entry.";
       Println Serial "fe 8a 2 bf";
       Println Serial "Welcome Nafea";
       Print Serial "Count of people: "; PrintlnInt Serial 42;
       Println bluetooth "Welcome Nafea";
       Print bluetooth "Count of people: "; PrintlnInt bluetooth 42;
       DigitalWrite 7 HIGH; Delay 600; DigitalWrite 7 LOW;
       Delay 3000; PICC_HaltA])) by reflexivity.
  split; [exact Hl|].
  destruct (peopleCount_evolution [] granted_visit (mkState 41) (mkState 42) _ _ Hl)
    as (_ & _ & Hg & _).
  apply Hg; [reflexivity|]. split; vm_compute; [discriminate | reflexivity].
Defined.


(** * Further properties of the sketch *)

(** ** Identifiers read back *)

Lemma tokens_piece (t : string) :
  string_forallb (fun c => negb (is_space c)) t = true ->
  forall rest cur, tokens (t ++ rest) cur = tokens rest (cur ++ t).
Proof.
  induction t as [|c t IH]; intros Ht rest cur; simpl in *.
  - now rewrite append_nil_r.
  - apply andb_prop in Ht. destruct Ht as [Hc Ht].
    destruct (is_space c); [discriminate|].
    rewrite (IH Ht), append_assoc. reflexivity.
Qed.

Lemma String_HEX_no_space (b : byte) :
  string_forallb (fun c => negb (is_space c)) (String_HEX b) = true.
Proof. destruct b; reflexivity. Qed.

Lemma parse_byte_String_HEX (b : byte) : parse_byte (String_HEX b) = Some b.
Proof. destruct b; reflexivity. Qed.

Lemma String_HEX_nonempty (b : byte) : String_HEX b <> "".
Proof. destruct b; discriminate. Qed.

Lemma tokens_concat (b : byte) (l : list byte) :
  tokens (String.concat " " (map String_HEX (b :: l))) "" = map String_HEX (b :: l).
Proof.
  revert b. induction l as [|b' l IH]; intros b.
  - cbn [map String.concat].
    rewrite <- (append_nil_r (String_HEX b)) at 1.
    rewrite (tokens_piece _ (String_HEX_no_space b)). reflexivity.
  - change (String.concat " " (map String_HEX (b :: b' :: l)))
      with (String_HEX b ++ " " ++ String.concat " " (map String_HEX (b' :: l))).
    rewrite (tokens_piece _ (String_HEX_no_space b)).
    change (" " ++ String.concat " " (map String_HEX (b' :: l)))
      with (String " " (String.concat " " (map String_HEX (b' :: l)))).
    cbn [tokens]. change (is_space " ") with true. cbv iota.
    rewrite IH. reflexivity.
Qed.

Lemma parse_bytes_map (l : list byte) : parse_bytes (map String_HEX l) = Some l.
Proof.
  induction l as [|b l IH]; [reflexivity|].
  cbn [map parse_bytes]. now rewrite parse_byte_String_HEX, IH.
Qed.

Lemma concat_cons_nonempty (b : byte) (l : list byte) :
  String.concat " " (map String_HEX (b :: l)) <> "".
Proof.
  destruct l as [|b' l]; cbn [map String.concat].
  - apply String_HEX_nonempty.
  - pose proof (String_HEX_nonempty b) as H.
    destruct (String_HEX b); [congruence | discriminate].
Qed.

Lemma parse_render_uid (uidByte : list byte) : parse_uid (render_uid uidByte) = Some uidByte.
Proof.
  rewrite render_uid_concat. destruct uidByte as [|b l]; [reflexivity|].
  unfold parse_uid.
  pose proof (concat_cons_nonempty b l) as Hne.
  pose proof (tokens_concat b l) as Ht.
  destruct (String.concat " " (map String_HEX (b :: l))) as [|c s] eqn:E; [congruence|].
  rewrite Ht. apply parse_bytes_map.
Qed.

Lemma render_uid_inj (a b : list byte) : render_uid a = render_uid b -> a = b.
Proof.
  intros H. apply (f_equal parse_uid) in H.
  rewrite !parse_render_uid in H. congruence.
Qed.

(** X1: reading a rendered identifier back gives the bytes of the card, so
    two cards with different UIDs never get the same identifier. *)
Theorem render_uid_round_trip (a b : list byte) :
  parse_uid (render_uid a) = Some a
  /\ (render_uid a = render_uid b -> a = b).
Proof.
  split; [apply parse_render_uid | apply render_uid_inj].
Qed.

Lemma render_uid_round_trip_witness : [x01; x23] = [x01; x23].
Proof.
  apply (proj2 (render_uid_round_trip [x01; x23] [x01; x23])). reflexivity.
Defined.

(** ** The size of an identifier *)

Lemma length_append (a b : string) :
  String.length (a ++ b) = (String.length a + String.length b)%nat.
Proof. induction a as [|c a IH]; simpl; [reflexivity | now rewrite IH]. Qed.

Lemma String_HEX_length (b : byte) : String.length (String_HEX b) = digits_of b.
Proof. destruct b; reflexivity. Qed.

Lemma digits_of_bounds (b : byte) : (1 <= digits_of b <= 2)%nat.
Proof. unfold digits_of. destruct (Byte.to_N b <? 16)%N; lia. Qed.

Lemma concat_length (b : byte) (l : list byte) :
  String.length (String.concat " " (map String_HEX (b :: l)))
  = (List.length l + list_sum (map digits_of (b :: l)))%nat.
Proof.
  revert b. induction l as [|b' l IH]; intros b.
  - cbn [map String.concat list_sum fold_right List.length].
    rewrite String_HEX_length. lia.
  - change (String.concat " " (map String_HEX (b :: b' :: l)))
      with (String_HEX b ++ " " ++ String.concat " " (map String_HEX (b' :: l))).
    rewrite !length_append, IH, String_HEX_length.
    cbn [map list_sum fold_right List.length String.length]. lia.
Qed.

Lemma list_sum_digits_bounds (l : list byte) :
  (List.length l <= list_sum (map digits_of l) <= 2 * List.length l)%nat.
Proof.
  induction l as [|b l IH]; cbn [map list_sum fold_right List.length]; [lia|].
  pose proof (digits_of_bounds b). unfold list_sum in IH. lia.
Qed.

(** X2: the identifier of a card of n bytes has n - 1 spaces and one or two
    digits per byte: its length is n - 1 plus the number of digits, hence
    between 2n - 1 and 3n - 1 for a card with at least one byte; the 10 bytes
    the reader delivers at most give at most 29 characters, and no byte at all
    gives the empty identifier. *)
Theorem render_uid_length (uidByte : list byte) :
  String.length (render_uid uidByte)
  = (List.length uidByte - 1 + list_sum (map digits_of uidByte))%nat
  /\ (uidByte <> [] ->
      (2 * List.length uidByte - 1 <= String.length (render_uid uidByte)
       <= 3 * List.length uidByte - 1)%nat)
  /\ ((List.length uidByte <= 10)%nat ->
      (String.length (render_uid uidByte) <= 29)%nat)
  /\ (render_uid uidByte = "" <-> uidByte = []).
Proof.
  rewrite render_uid_concat.
  destruct uidByte as [|b l].
  - repeat split; try reflexivity; intros; cbn; lia.
  - pose proof (list_sum_digits_bounds (b :: l)) as Hs.
    rewrite concat_length. cbn [List.length] in *.
    repeat split; try lia; intros H; try discriminate.
    exfalso. exact (concat_cons_nonempty b l H).
Qed.

Lemma render_uid_length_witness :
  (2 * 4 - 1 <= String.length (render_uid [xfe; x8a; x02; xbf]) <= 3 * 4 - 1)%nat
  /\ (String.length (render_uid [xfe; x8a; x02; xbf]) <= 29)%nat.
Proof.
  split.
  - apply (proj1 (proj2 (render_uid_length [xfe; x8a; x02; xbf]))). discriminate.
  - apply (proj1 (proj2 (proj2 (render_uid_length [xfe; x8a; x02; xbf])))).
    cbn. lia.
Defined.

(** ** Which cards open *)

(** X3: with the table of the sketch, a card is granted access exactly when
    its UID is 04 4A F5 6A 2C 59 80 or FE 8A 02 BF; every other byte sequence,
    of whatever length, is rejected. *)
Theorem granted_cards (uidByte : list byte) :
  accessGranted (check_uid authorizedUsers (render_uid uidByte)) = true
  <-> uidByte = [x04; x4a; xf5; x6a; x2c; x59; x80] \/ uidByte = [xfe; x8a; x02; xbf].
Proof.
  split.
  - unfold check_uid, authorizedUsers, match_loop. cbn [uid name].
    destruct (String.eqb_spec (render_uid uidByte) "4 4a f5 6a 2c 59 80") as [E|_].
    + intros _. left. apply render_uid_inj. rewrite E. reflexivity.
    + destruct (String.eqb_spec (render_uid uidByte) "fe 8a 2 bf") as [E|_].
      * intros _. right. apply render_uid_inj. rewrite E. reflexivity.
      * destruct (String.eqb_spec (render_uid uidByte) "9F 30 19 89") as [E|_].
        -- exfalso. exact (render_uid_not_samy uidByte E).
        -- discriminate.
  - intros [-> | ->]; reflexivity.
Qed.

(** ** Lookup in any table *)

Lemma match_loop_inv (users : list User) (s : string) :
  match_loop users s (mkAccessResult false "") = mkAccessResult false ""
  /\ (forall v, In v users -> uid v <> s)
  \/ exists pre u post,
      users = (pre ++ u :: post)%list /\ uid u = s
      /\ (forall v, In v pre -> uid v <> s)
      /\ match_loop users s (mkAccessResult false "") = mkAccessResult true (name u).
Proof.
  induction users as [|w users IH]; simpl.
  - left. split; [reflexivity | intros v []].
  - destruct (String.eqb_spec s (uid w)) as [E|N].
    + right. exists [], w, users. repeat split; auto; intros v [].
    + destruct IH as [[Hr Hno] | (pre & u & post & -> & Hu & Hno & Hr)].
      * left. split; [exact Hr|]. intros v [<-|Hv]; [congruence | now apply Hno].
      * right. exists (w :: pre), u, post. repeat split; auto;
          intros v [<-|Hv]; [congruence | now apply Hno].
Qed.

(** X4: in any table, a lookup grants access exactly when some entry has the
    scanned identifier; the name it returns is then the name of such an entry,
    and a rejection carries the empty name. *)
Theorem lookup_finds_present (users : list User) (s : string) :
  (accessGranted (check_uid users s) = true <-> exists u, In u users /\ uid u = s)
  /\ (accessGranted (check_uid users s) = true ->
      exists u, In u users /\ uid u = s /\ userName (check_uid users s) = name u)
  /\ (accessGranted (check_uid users s) = false -> userName (check_uid users s) = "").
Proof.
  unfold check_uid.
  destruct (match_loop_inv users s) as [[Hr Hno] | (pre & u & post & Hus & Hu & Hno & Hr)];
    rewrite Hr; cbn [accessGranted userName].
  - split; [split|split]; try discriminate; try reflexivity.
    intros (u & Hin & Hu). exfalso. exact (Hno u Hin Hu).
  - assert (Hin : In u users) by (rewrite Hus; apply in_elt).
    split; [split|split]; try discriminate; intros _; eauto.
Qed.

Lemma lookup_finds_present_witness :
  exists u, In u authorizedUsers /\ uid u = "fe 8a 2 bf"
            /\ userName (check_uid authorizedUsers "fe 8a 2 bf") = name u.
Proof.
  apply (proj1 (proj2 (lookup_finds_present authorizedUsers "fe 8a 2 bf"))).
  reflexivity.
Defined.

(** ** Entries no card can match *)



(** ** The paths of one call *)

(** The five ways a call of [loop] can return. *)
Lemma loop_cases (inp : Inputs) (st st' : State) (rest : list Poll) (t : list Effect) :
  loop inp st = Some (rest, st', t) ->
  (classify (ping_cm inp) = NoSubject /\ rest = polls inp /\ st' = st
   /\ t = (prologue (ping_cm inp) ++ no_subject_feedback ++ [PICC_HaltA])%list)
  \/ (classify (ping_cm inp) = TooShort /\ rest = polls inp /\ st' = st
      /\ t = (prologue (ping_cm inp) ++ too_short_feedback ++ [PICC_HaltA])%list)
  \/ (classify (ping_cm inp) = AtThreshold /\ rest = polls inp /\ st' = st
      /\ t = (prologue (ping_cm inp) ++ [PICC_HaltA])%list)
  \/ (classify (ping_cm inp) = InRange
      /\ window_exit (startTime inp) (polls inp) = Timeout rest /\ st' = st
      /\ t = (prologue (ping_cm inp) ++ prompt_feedback ++ [PICC_HaltA])%list)
  \/ (classify (ping_cm inp) = InRange
      /\ exists u,
          window_exit (startTime inp) (polls inp) = CardRead u rest
          /\ st' = state_after_card u st
          /\ t = (prologue (ping_cm inp) ++ prompt_feedback
                  ++ trace_of_card u st ++ [PICC_HaltA])%list).
Proof.
  rewrite loop_eq, card_wait_eq.
  destruct (classify (ping_cm inp)).
  - intros H. left. repeat split; congruence.
  - intros H. right. left. repeat split; congruence.
  - destruct (window_exit (startTime inp) (polls inp)) as [u r|r|]; intros H.
    + right. right. right. right. split; [reflexivity|]. exists u.
      repeat split; congruence.
    + right. right. right. left.
      assert (E : t = (prologue (ping_cm inp) ++ prompt_feedback
                       ++ [] ++ [PICC_HaltA])%list) by congruence.
      repeat split; try congruence. rewrite E. reflexivity.
    + discriminate.
  - intros H. right. right. left. repeat split; congruence.
Qed.

(** ** The window and the rollover of the clock *)

(** X6: the test of the wait loop measures elapsed time correctly across the
    rollover of [millis()]: when [e] milliseconds have really passed since
    [startTime], whatever the 32-bit value of [startTime], the window is open
    exactly when [e] is below 8000. *)
Theorem window_survives_rollover (start e : Z) :
  0 <= start < 2 ^ 32 ->
  0 <= e < 2 ^ 32 ->
  window_open start (wrap_ulong (start + e)) = (e <? 8000).
Proof.
  intros Hs He. unfold window_open, wrap_ulong.
  rewrite Zminus_mod_idemp_l.
  replace (start + e - start) with e by lia.
  now rewrite Z.mod_small by lia.
Qed.

Lemma window_survives_rollover_witness :
  window_open 4294967000 (wrap_ulong (4294967000 + 7999)) = true
  /\ window_open 4294967000 (wrap_ulong (4294967000 + 8000)) = false.
Proof.
  split.
  - rewrite (window_survives_rollover 4294967000 7999); [reflexivity | | ];
      split; vm_compute; first [reflexivity | discriminate].
  - rewrite (window_survives_rollover 4294967000 8000); [reflexivity | | ];
      split; vm_compute; first [reflexivity | discriminate].
Defined.

(** ** Shape of a trace *)

Lemma filter_halt_trace_of_card (u : list byte) (st : State) :
  filter is_halt (trace_of_card u st) = [].
Proof.
  unfold trace_of_card.
  destruct (accessGranted (check_uid authorizedUsers (render_uid u))); reflexivity.
Qed.

(** X7: every call of [loop] that returns starts by printing the height and
    the distance, halts the card session exactly once, and does so as its very
    last effect. *)
Theorem halt_once_and_last (inp : Inputs) (st st' : State) (rest : list Poll)
        (t : list Effect) :
  loop inp st = Some (rest, st', t) ->
  firstn 2 t = [PrintlnFloat Serial (height_of (ping_cm inp));
                PrintlnFloat Serial (ping_cm inp)]
  /\ filter is_halt t = [PICC_HaltA]
  /\ exists body, t = (body ++ [PICC_HaltA])%list.
Proof.
  intros H.
  destruct (loop_cases _ _ _ _ _ H)
    as [(_ & _ & _ & ->) | [(_ & _ & _ & ->) | [(_ & _ & _ & ->)
       | [(_ & _ & _ & ->) | (_ & u & _ & _ & ->)]]]].
  - split; [reflexivity|]. split; [reflexivity|].
    exists (prologue (ping_cm inp) ++ no_subject_feedback)%list.
    now rewrite <- app_assoc.
  - split; [reflexivity|]. split; [reflexivity|].
    exists (prologue (ping_cm inp) ++ too_short_feedback)%list.
    now rewrite <- app_assoc.
  - split; [reflexivity|]. split; [reflexivity|].
    exists (prologue (ping_cm inp)). reflexivity.
  - split; [reflexivity|]. split; [reflexivity|].
    exists (prologue (ping_cm inp) ++ prompt_feedback)%list.
    now rewrite <- app_assoc.
  - split; [reflexivity|]. split.
    + rewrite !filter_app, filter_halt_trace_of_card. reflexivity.
    + exists (prologue (ping_cm inp) ++ prompt_feedback ++ trace_of_card u st)%list.
      now rewrite <- !app_assoc.
Qed.

Lemma halt_once_and_last_witness :
  filter is_halt
    [PrintlnFloat Serial 58; PrintlnFloat Serial 150;
     Println Serial "Entry denied: Person is too short.";
     Println bluetooth "Entry denied: Person is too short.";
     ToneAC 7 1000 200; Delay 200; PICC_HaltA]
  = [PICC_HaltA].
Proof.
  exact (proj1 (proj2 (halt_once_and_last (mkInputs 150 0 []) initial_state
                         initial_state [] _ eq_refl))).
Defined.

(** ** The buzzer pin *)

Lemma pin_after_app (pin : Z) (l : Level) (a b : list Effect) :
  pin_after pin l (a ++ b) = pin_after pin (pin_after pin l a) b.
Proof. unfold pin_after. apply fold_left_app. Qed.

Lemma pin_after_loop (inp : Inputs) (st st' : State) (rest : list Poll) (t : list Effect) :
  loop inp st = Some (rest, st', t) ->
  pin_after BUZZER_PIN LOW t = LOW.
Proof.
  intros H.
  destruct (loop_cases _ _ _ _ _ H)
    as [(_ & _ & _ & ->) | [(_ & _ & _ & ->) | [(_ & _ & _ & ->)
       | [(_ & _ & _ & ->) | (_ & u & _ & _ & ->)]]]]; try reflexivity.
  unfold trace_of_card.
  destruct (accessGranted (check_uid authorizedUsers (render_uid u))); reflexivity.
Qed.

Lemma pin_after_run (ins : list Inputs) :
  forall st final t,
    run_trace ins st = Some (final, t) -> pin_after BUZZER_PIN LOW t = LOW.
Proof.
  induction ins as [|inp ins IH]; intros st final t H; simpl in H.
  - injection H as _ <-. reflexivity.
  - destruct (loop inp st) as [[[rest st'] t1]|] eqn:Hl; [|discriminate].
    destruct (run_trace ins st') as [[f t2]|] eqn:Hr; [|discriminate].
    assert (E : t = (t1 ++ t2)%list) by congruence.
    rewrite E, pin_after_app, (pin_after_loop _ _ _ _ _ Hl). exact (IH _ _ _ Hr).
Qed.

(** X8: [setup] leaves the buzzer pin low whatever its level was, and at the
    end of every call of [loop] the pin is low again: over [setup] followed by
    any number of calls the sketch never returns with the buzzer output left
    high. *)
Theorem buzzer_never_left_high (ins : list Inputs) (l : Level) (st0 final : State)
        (t0 t : list Effect) :
  setup initial_state = Some (tt, st0, t0) ->
  run_trace ins st0 = Some (final, t) ->
  pin_after BUZZER_PIN l t0 = LOW
  /\ pin_after BUZZER_PIN l (t0 ++ t) = LOW.
Proof.
  intros Hs Hr.
  assert (H0 : pin_after BUZZER_PIN l t0 = LOW).
  { assert (Hs' : setup initial_state
                  = Some (tt, initial_state,
                          [Begin Serial 9600; Begin bluetooth 9600;
                           PinModeOutput BUZZER_PIN; DigitalWrite BUZZER_PIN LOW;
                           SPI_begin; PCD_Init])) by reflexivity.
    rewrite Hs' in Hs.
    assert (E : t0 = [Begin Serial 9600; Begin bluetooth 9600;
                      PinModeOutput BUZZER_PIN; DigitalWrite BUZZER_PIN LOW;
                      SPI_begin; PCD_Init]) by congruence.
    rewrite E. destruct l; reflexivity. }
  split; [exact H0|].
  rewrite pin_after_app, H0. exact (pin_after_run _ _ _ _ Hr).
Qed.

Lemma buzzer_never_left_high_witness :
  pin_after BUZZER_PIN HIGH
    ([Begin Serial 9600; Begin bluetooth 9600; PinModeOutput BUZZER_PIN;
      DigitalWrite BUZZER_PIN LOW; SPI_begin; PCD_Init]
     ++ [PrintlnFloat Serial 118; PrintlnFloat Serial 90;
         Println Serial "Please present NFC card for entry.";
         Println bluetooth "Please present NFC card for entry.";
         Println Serial "fe 8a 2 bf";
         Println Serial "Welcome Nafea";
         Print Serial "Count of people: "; PrintlnInt Serial 1;
         Println bluetooth "Welcome Nafea";
         Print bluetooth "Count of people: "; PrintlnInt bluetooth 1;
         DigitalWrite 7 HIGH; Delay 600; DigitalWrite 7 LOW;
         Delay 3000; PICC_HaltA])
  = LOW.
Proof.
  exact (proj2 (buzzer_never_left_high [granted_visit] HIGH initial_state (mkState 1)
                  _ _ eq_refl eq_refl)).
Defined.

(** ** The counter over any run *)

Lemma wrap_int_range (z : Z) : INT_MIN <= wrap_int z <= INT_MAX.
Proof.
  unfold INT_MIN, INT_MAX, wrap_int.
  pose proof (Z.mod_pos_bound (z + 32768) 65536 eq_refl). lia.
Qed.

Lemma wrap_int_small (z : Z) : INT_MIN <= z <= INT_MAX -> wrap_int z = z.
Proof.
  unfold INT_MIN, INT_MAX, wrap_int. intros H.
  rewrite Z.mod_small by lia. lia.
Qed.

Lemma wrap_int_add (a b : Z) : wrap_int (wrap_int a + b) = wrap_int (a + b).
Proof.
  unfold wrap_int. f_equal.
  replace ((a + 32768) mod 65536 - 32768 + b + 32768)
    with ((a + 32768) mod 65536 + b) by lia.
  rewrite Zplus_mod_idemp_l. f_equal. lia.
Qed.

Lemma run_peopleCount_wrap (ins : list Inputs) :
  forall st final,
    run ins st = Some final ->
    wrap_int (peopleCount final)
    = wrap_int (peopleCount st + Z.of_nat (count_granted ins)).
Proof.
  unfold count_granted.
  induction ins as [|inp ins IH]; intros st final Hrun; simpl in Hrun.
  - injection Hrun as <-. simpl. now rewrite Z.add_0_r.
  - destruct (loop inp st) as [[[rest st'] t]|] eqn:Hl; [|discriminate].
    pose proof (loop_peopleCount _ _ _ _ _ Hl) as Hc.
    rewrite (IH st' final Hrun), Hc. cbn [filter].
    destruct (granted_iteration inp); cbn [List.length].
    + rewrite wrap_int_add. f_equal. lia.
    + reflexivity.
Qed.

Lemma run_peopleCount_range (ins : list Inputs) :
  forall st final,
    run ins st = Some final ->
    INT_MIN <= peopleCount st <= INT_MAX ->
    INT_MIN <= peopleCount final <= INT_MAX.
Proof.
  induction ins as [|inp ins IH]; intros st final Hrun Hst; simpl in Hrun.
  - injection Hrun as <-. exact Hst.
  - destruct (loop inp st) as [[[rest st'] t]|] eqn:Hl; [|discriminate].
    apply (IH st' final Hrun).
    rewrite (loop_peopleCount _ _ _ _ _ Hl).
    destruct (granted_iteration inp); [apply wrap_int_range | exact Hst].
Qed.

(** X9: after any number of calls of [loop] from the initial state the
    counter is the number of granted calls reduced to the 16-bit [int] range:
    it always lies between -32768 and 32767, and it equals the number of
    grants modulo 65536. *)
Theorem peopleCount_is_grants_mod_65536 (ins : list Inputs) (final : State) :
  run ins initial_state = Some final ->
  peopleCount final = wrap_int (Z.of_nat (count_granted ins))
  /\ INT_MIN <= peopleCount final <= INT_MAX
  /\ (peopleCount final - Z.of_nat (count_granted ins)) mod 65536 = 0.
Proof.
  intros Hrun.
  assert (Hr : INT_MIN <= peopleCount final <= INT_MAX)
    by (apply (run_peopleCount_range ins initial_state final Hrun); cbv; split; discriminate).
  assert (He : peopleCount final = wrap_int (Z.of_nat (count_granted ins))).
  { rewrite <- (wrap_int_small _ Hr).
    rewrite (run_peopleCount_wrap ins initial_state final Hrun). reflexivity. }
  split; [exact He|]. split; [exact Hr|].
  rewrite He. unfold wrap_int.
  replace ((Z.of_nat (count_granted ins) + 32768) mod 65536 - 32768
           - Z.of_nat (count_granted ins))
    with ((Z.of_nat (count_granted ins) + 32768) mod 65536
          - (Z.of_nat (count_granted ins) + 32768)) by lia.
  rewrite Zminus_mod_idemp_l. replace (_ - _) with 0 by lia. reflexivity.
Qed.

Lemma peopleCount_is_grants_mod_65536_witness :
  peopleCount (mkState 2) = wrap_int (Z.of_nat (count_granted [granted_visit; granted_visit])).
Proof.
  exact (proj1 (peopleCount_is_grants_mod_65536 [granted_visit; granted_visit]
                  (mkState 2) eq_refl)).
Defined.

(** ** The two transcripts *)

Ltac subseq_greedy :=
  repeat first [ apply subseq_nil | apply subseq_take | apply subseq_skip ].

(** X10: in every call of [loop] what goes to the wireless link is, in the
    same order, part of what goes to the local log: nothing is ever sent over
    Bluetooth without having been printed on Serial.  The converse fails, the
    no-subject message being printed only. *)
Theorem bluetooth_mirrors_serial (inp : Inputs) (st st' : State) (rest : list Poll)
        (t : list Effect) :
  loop inp st = Some (rest, st', t) ->
  subseq (written_to bluetooth t) (written_to Serial t)
  /\ (classify (ping_cm inp) = NoSubject ->
      written_to bluetooth t = []
      /\ In (WLine "No one under the sensor.") (written_to Serial t)).
Proof.
  intros H.
  destruct (loop_cases _ _ _ _ _ H)
    as [(Hc & _ & _ & ->) | [(Hc & _ & _ & ->) | [(Hc & _ & _ & ->)
       | [(Hc & _ & _ & ->) | (Hc & u & _ & _ & ->)]]]];
    (split; [|intros Hn; try congruence]).
  - cbn. subseq_greedy.
  - split; [reflexivity|]. cbn. auto.
  - cbn. subseq_greedy.
  - cbn. subseq_greedy.
  - cbn. subseq_greedy.
  - unfold trace_of_card.
    destruct (accessGranted (check_uid authorizedUsers (render_uid u)));
      cbn; subseq_greedy.
Qed.

Lemma bluetooth_mirrors_serial_witness :
  subseq [WLine "Entry denied: Person is too short."]
         [WFloatLine 58; WFloatLine 150; WLine "Entry denied: Person is too short."].
Proof.
  exact (proj1 (bluetooth_mirrors_serial (mkInputs 150 0 []) initial_state
                  initial_state [] _ eq_refl)).
Defined.

(** ** Time spent waiting and signals given *)

Lemma total_delay_app (a b : list Effect) :
  total_delay (a ++ b) = total_delay a + total_delay b.
Proof.
  induction a as [|e a IH]; [reflexivity|].
  destruct e; cbn [app total_delay]; rewrite IH; lia.
Qed.

(** X11: the time a call of [loop] spends in [delay] depends only on the path
    taken: 1700 ms when nobody is under the sensor, 200 ms for a person too
    short, 3600 ms after a grant, 1200 ms after a rejection, and none at the
    threshold height or when the window closes without a card.  It is never
    more than 3600 ms. *)
Theorem delay_per_path (inp : Inputs) (st st' : State) (rest : list Poll)
        (t : list Effect) :
  loop inp st = Some (rest, st', t) ->
  total_delay t
  = match classify (ping_cm inp) with
    | NoSubject => 1700
    | TooShort => 200
    | AtThreshold => 0
    | InRange =>
        match iteration_outcome inp with
        | Some r => if accessGranted r then 3600 else 1200
        | None => 0
        end
    end
  /\ 0 <= total_delay t <= 3600.
Proof.
  intros H.
  assert (E : total_delay t
              = match classify (ping_cm inp) with
                | NoSubject => 1700
                | TooShort => 200
                | AtThreshold => 0
                | InRange =>
                    match iteration_outcome inp with
                    | Some r => if accessGranted r then 3600 else 1200
                    | None => 0
                    end
                end).
  { unfold iteration_outcome.
    destruct (loop_cases _ _ _ _ _ H)
      as [(Hc & _ & _ & ->) | [(Hc & _ & _ & ->) | [(Hc & _ & _ & ->)
         | [(Hc & Hw & _ & ->) | (Hc & u & Hw & _ & ->)]]]];
      rewrite Hc; try rewrite Hw; try reflexivity.
    rewrite !total_delay_app. unfold trace_of_card.
    destruct (accessGranted (check_uid authorizedUsers (render_uid u))); reflexivity. }
  split; [exact E|]. rewrite E.
  destruct (classify (ping_cm inp)); try lia.
  destruct (iteration_outcome inp) as [r|]; [destruct (accessGranted r)|]; lia.
Qed.

Lemma delay_per_path_witness :
  total_delay [PrintlnFloat Serial 0; PrintlnFloat Serial 208;
               Println Serial "No one under the sensor.";
               ToneAC 7 1000 200; Delay 200; Delay 1500; PICC_HaltA]
  = 1700.
Proof.
  exact (proj1 (delay_per_path (mkInputs 208 0 []) initial_state
                  initial_state [] _ eq_refl)).
Defined.

Lemma buzzer_signals_app (a b : list Effect) :
  buzzer_signals (a ++ b) = (buzzer_signals a + buzzer_signals b)%nat.
Proof. unfold buzzer_signals. now rewrite filter_app, length_app. Qed.

(** X12: a call of [loop] sounds the buzzer at most once: exactly once when
    nobody is under the sensor, when the person is too short and when a card
    was read (granted or rejected), and not at all at the threshold height or
    when the window closes without a card. *)
Theorem one_buzzer_signal_per_path (inp : Inputs) (st st' : State) (rest : list Poll)
        (t : list Effect) :
  loop inp st = Some (rest, st', t) ->
  buzzer_signals t
  = match classify (ping_cm inp) with
    | NoSubject | TooShort => 1%nat
    | AtThreshold => 0%nat
    | InRange =>
        match iteration_outcome inp with
        | Some _ => 1%nat
        | None => 0%nat
        end
    end.
Proof.
  intros H. unfold iteration_outcome.
  destruct (loop_cases _ _ _ _ _ H)
    as [(Hc & _ & _ & ->) | [(Hc & _ & _ & ->) | [(Hc & _ & _ & ->)
       | [(Hc & Hw & _ & ->) | (Hc & u & Hw & _ & ->)]]]];
    rewrite Hc; try rewrite Hw; try reflexivity.
  rewrite !buzzer_signals_app. unfold trace_of_card.
  destruct (accessGranted (check_uid authorizedUsers (render_uid u))); reflexivity.
Qed.

Lemma one_buzzer_signal_per_path_witness :
  buzzer_signals [PrintlnFloat Serial 100; PrintlnFloat Serial 108; PICC_HaltA] = 0%nat.
Proof.
  exact (one_buzzer_signal_per_path (mkInputs 108 0 []) initial_state
           initial_state [] _ eq_refl).
Defined.

(** ** The height gate *)

(** X13: a person whose height is at most [MIN_HEIGHT_FOR_ACCESS], or a
    reading out of range, is never let in, whatever card is held to the
    reader: the reader is not polled at all, the counter keeps its value, no
    outcome is announced and nothing is sent that welcomes anybody. *)
Theorem no_entry_below_threshold (inp : Inputs) (st st' : State) (rest : list Poll)
        (t : list Effect) :
  loop inp st = Some (rest, st', t) ->
  height_of (ping_cm inp) <= MIN_HEIGHT_FOR_ACCESS \/ 400 <= height_of (ping_cm inp) ->
  rest = polls inp
  /\ st' = st
  /\ granted_iteration inp = false
  /\ outcomes t = 0%nat
  /\ pin_after BUZZER_PIN LOW t = LOW
  /\ forall e, In e t -> e <> DigitalWrite BUZZER_PIN HIGH.
Proof.
  intros H Hh.
  assert (Hn : classify (ping_cm inp) <> InRange).
  { intros E. apply classify_InRange_iff in E. lia. }
  unfold granted_iteration, iteration_outcome.
  destruct (loop_cases _ _ _ _ _ H)
    as [(Hc & -> & -> & ->) | [(Hc & -> & -> & ->) | [(Hc & -> & -> & ->)
       | [(Hc & _) | (Hc & _)]]]];
    try congruence; rewrite Hc;
    (repeat split; try reflexivity);
    intros e; cbn; intuition (subst; discriminate).
Qed.

Lemma no_entry_below_threshold_witness :
  granted_iteration (mkInputs 108 0 [mkPoll 1 (Some [xfe; x8a; x02; xbf])]) = false.
Proof.
  refine (proj1 (proj2 (proj2
            (no_entry_below_threshold
               (mkInputs 108 0 [mkPoll 1 (Some [xfe; x8a; x02; xbf])])
               initial_state initial_state
               [mkPoll 1 (Some [xfe; x8a; x02; xbf])] _ eq_refl _)))).
  left. vm_compute. discriminate.
Defined.

(** ** Idle turns of the wait loop *)

(** X14: turns of the wait loop on which the window is open and no card is
    read change nothing: with a person in range, a call whose script starts
    with such turns returns exactly what it returns without them. *)
Theorem idle_turns_are_skipped (inp : Inputs) (st : State) (pre ps : list Poll) :
  classify (ping_cm inp) = InRange ->
  polls inp = (pre ++ ps)%list ->
  Forall (quiet (startTime inp)) pre ->
  loop inp st = loop (mkInputs (ping_cm inp) (startTime inp) ps) st.
Proof.
  intros Hc Hp Hq.
  rewrite !loop_eq, !card_wait_eq. cbn [ping_cm startTime polls].
  rewrite Hc, Hp, (window_exit_quiet _ _ _ Hq). reflexivity.
Qed.

Lemma idle_turns_are_skipped_witness :
  loop (mkInputs 90 0 [mkPoll 1 None; mkPoll 2 None; mkPoll 3 (Some [xff])]) initial_state
  = loop (mkInputs 90 0 [mkPoll 3 (Some [xff])]) initial_state.
Proof.
  apply (idle_turns_are_skipped
           (mkInputs 90 0 [mkPoll 1 None; mkPoll 2 None; mkPoll 3 (Some [xff])])
           initial_state [mkPoll 1 None; mkPoll 2 None] [mkPoll 3 (Some [xff])]).
  - reflexivity.
  - reflexivity.
  - repeat constructor.
Defined.

(** ** The branching in binary32 *)

Lemma agree_upto_sound (n : nat) :
  forall d, agree_upto n d = true ->
  forall r, d <= r < d + Z.of_nat n -> Float32.classify r = classify r.
Proof.
  induction n as [|n IH]; intros d H r Hr; [lia|].
  cbn [agree_upto] in H. apply andb_prop in H. destruct H as [H1 H2].
  destruct (Z.eq_dec r d) as [->|Hne].
  - now apply HeightClass_eqb_eq.
  - apply (IH (d + 1) H2). lia.
Qed.

(** X15: for every reading from 0 to 65535 cm, far more than the sensor can
    answer, branching on the [float] height as the sketch does gives the same
    path as branching on the integer height. *)
Theorem binary32_branching_agrees (reading : Z) :
  0 <= reading < 65536 ->
  Float32.classify reading = classify reading.
Proof.
  intros H. apply (agree_upto_sound (Z.to_nat 65536) 0).
  - vm_compute. reflexivity.
  - rewrite Z2Nat.id; lia.
Qed.

Lemma binary32_branching_agrees_witness : Float32.classify 108 = classify 108.
Proof.
  apply (binary32_branching_agrees 108). split; vm_compute; first [reflexivity | discriminate].
Defined.
